(** * SimBrief uplink adapter: navlog classification and route synthesis

    A shallow embedding of
    [fbw-a32nx/src/systems/fmgc/src/flightplanning/new/uplink/SimBriefUplinkAdapter.ts]
    together with the properties its specification states about it.

    - [generateRouteInstructionsFromNavlog] (the navlog classifier) is a pure
      function from the OFP navlog to a list of route chunks.
    - The chunk loop of [uplinkFlightPlanFromSimbrief] (the route synthesizer)
      is a state-and-exception computation over the uplink flight plan, the
      pending airway entry and the local [insertHead].

    Collaborators that live outside the adapter (flight plan service,
    navigation database, [distanceTo], [parseFloat]) are interfaces here. *)

From Stdlib Require Import List String Ascii ZArith QArith Qabs Bool Lia.
Import ListNotations.

Local Open Scope string_scope.
Local Open Scope list_scope.
Local Open Scope Z_scope.

Set Implicit Arguments.

(* ================================================================== *)
(** ** JavaScript values used by the adapter *)

(** A JS [number], as far as the adapter observes it: the adapter only moves
    numbers around and compares distances with [<].  Finite doubles are
    rationals, so a rational payload loses nothing for comparison. *)
Inductive number : Type :=
| NaN
| NegInfinity
| Finite (q : Q)
| PosInfinity.

Definition Qltb (x y : Q) : bool := negb (Qle_bool y x).

(** The [<] operator on numbers: false as soon as one side is [NaN]. *)
Definition number_lt (a b : number) : bool :=
  match a, b with
  | NaN, _ | _, NaN => false
  | NegInfinity, NegInfinity => false
  | NegInfinity, _ => true
  | Finite _, NegInfinity => false
  | Finite x, Finite y => Qltb x y
  | Finite _, PosInfinity => true
  | PosInfinity, _ => false
  end.

(** [Number.MAX_SAFE_INTEGER], that is 2^53 - 1. *)
Definition MAX_SAFE_INTEGER : number := Finite (9007199254740991 # 1).

(** [arr[i]] for a signed index: [undefined] outside the array. *)
Definition at_index {A : Type} (arr : list A) (i : Z) : option A :=
  if i <? 0 then None else nth_error arr (Z.to_nat i).

(** [arr[arr.length - 1]]. *)
Definition lastOf {A : Type} (arr : list A) : option A :=
  at_index arr (Z.of_nat (List.length arr) - 1).

(** [arr.push(x)]. *)
Definition push {A : Type} (arr : list A) (x : A) : list A := arr ++ [x].

(** [arr.find(p)]. *)
Definition find_first {A : Type} (p : A -> bool) (arr : list A) : option A :=
  List.find p arr.

(** [/^NAT[A-Z]$/] on a whole string. *)
Definition isUpperAZ (c : ascii) : bool :=
  let n := nat_of_ascii c in (Nat.leb 65 n && Nat.leb n 90)%bool.

Definition matchesNatTrack (s : string) : bool :=
  match s with
  | String "N" (String "A" (String "T" (String c EmptyString))) => isUpperAZ c
  | _ => false
  end.

(* ================================================================== *)
(** ** Data model *)

Record Coordinates : Type := { lat : number; long : number }.

(** One entry of [ofp.navlog]; every field is text in the OFP. *)
Record NavlogFix : Type := {
  ident : string;
  type : string;
  pos_lat : string;
  pos_long : string;
  via_airway : string;
  is_sid_star : string
}.

(** [OfpRouteChunk]: one constructor per [instruction] tag. *)
Inductive OfpRouteChunk : Type :=
| AirwayOfpRouteChunk (ident : string) (locationHint : Coordinates)
| AirwayTerminationOfpRouteChunk (ident : string)
| WaypointOfpRouteChunk (ident : string) (locationHint : Coordinates)
| LatLongOfpRouteChunk (lat long : number)
| DctOfpRouteChunk
| ProcedureOfpRouteChunk (ident : string)
| SidEnrouteTransitionOfpRouteChunk (ident : string) (locationHint : Coordinates)
| StarEnrouteTransitionOfpRouteChunk (ident : string).

Definition isProcedure (c : OfpRouteChunk) : bool :=
  match c with ProcedureOfpRouteChunk _ => true | _ => false end.

Definition isAirway (c : OfpRouteChunk) : bool :=
  match c with AirwayOfpRouteChunk _ _ => true | _ => false end.

Definition isAirwayTermination (c : OfpRouteChunk) : bool :=
  match c with AirwayTerminationOfpRouteChunk _ => true | _ => false end.

Definition isWaypoint (c : OfpRouteChunk) : bool :=
  match c with WaypointOfpRouteChunk _ _ => true | _ => false end.

(** [c.instruction === 'procedure' && c.ident === id]. *)
Definition isProcedureFor (id : string) (c : OfpRouteChunk) : bool :=
  match c with ProcedureOfpRouteChunk i => String.eqb i id | _ => false end.

(** [c.instruction === 'airway' && c.ident === id]. *)
Definition isAirwayFor (id : string) (c : OfpRouteChunk) : bool :=
  match c with AirwayOfpRouteChunk i _ => String.eqb i id | _ => false end.

(** [o?.p(...)] used as a condition: [undefined] is falsy. *)
Definition holds {A : Type} (p : A -> bool) (o : option A) : bool :=
  match o with Some a => p a | None => false end.

(** Every 'airway' chunk is immediately followed by an 'airwayTermination'
    chunk. *)
Fixpoint airwaysClosed (instructions : list OfpRouteChunk) : bool :=
  match instructions with
  | [] => true
  | c :: tl =>
      ((negb (isAirway c) || holds isAirwayTermination (hd_error tl))
       && airwaysClosed tl)%bool
  end.

Definition isLatLong (c : OfpRouteChunk) : bool :=
  match c with LatLongOfpRouteChunk _ _ => true | _ => false end.

Definition isSidEnrouteTransition (c : OfpRouteChunk) : bool :=
  match c with SidEnrouteTransitionOfpRouteChunk _ _ => true | _ => false end.

(** Whether [c] may come right after [previous] ([None]: as the first chunk)
    in what the classifier emits. *)
Definition follows (previous : option OfpRouteChunk) (c : OfpRouteChunk) : bool :=
  match c with
  | AirwayTerminationOfpRouteChunk _ => holds isAirway previous
  | SidEnrouteTransitionOfpRouteChunk _ _ => holds isProcedure previous
  | ProcedureOfpRouteChunk _ => negb (holds isProcedure previous)
  | AirwayOfpRouteChunk ident _ =>
      match previous with
      | Some p => negb (isAirwayFor ident p)
      | None => false
      end
  | WaypointOfpRouteChunk _ _ | LatLongOfpRouteChunk _ _ => true
  | DctOfpRouteChunk | StarEnrouteTransitionOfpRouteChunk _ => false
  end.

(** Every chunk of [instructions] may come after the one before it. *)
Definition wellSequenced (instructions : list OfpRouteChunk) : Prop :=
  forall before c after,
    instructions = before ++ c :: after -> follows (lastOf before) c = true.

(** One more chunk is owed while the last chunk is an airway. *)
Definition owed (instructions : list OfpRouteChunk) : nat :=
  if holds isAirway (lastOf instructions) then 1%nat else 0%nat.

(* ================================================================== *)
(** ** The navlog classifier *)

Section Classifier.

(** The global [parseFloat]. *)
Variable parseFloat : string -> number.

Definition locationOf (fix_ : NavlogFix) : Coordinates :=
  {| lat := parseFloat (pos_lat fix_); long := parseFloat (pos_long fix_) |}.

(** The guard at the top of the loop body: TOC, TOD and airports give no
    chunk. *)
Definition skipped (fix_ : NavlogFix) : bool :=
  (String.eqb (ident fix_) "TOC" || String.eqb (ident fix_) "TOD"
   || String.eqb (type fix_) "apt")%bool.

(** [via === 'DCT' || via === 'DCT*' || via.match(/^NAT[A-Z]$/)]. *)
Definition isDirectVia (via : string) : bool :=
  (String.eqb via "DCT" || String.eqb via "DCT*" || matchesNatTrack via)%bool.

(** The [if / else if] chain of the loop body. *)
Definition classifyFix (lastFix : option NavlogFix) (fix_ : NavlogFix)
    (instructions : list OfpRouteChunk) : list OfpRouteChunk :=
  let lastInstruction := lastOf instructions in
  if String.eqb (is_sid_star fix_) "1" then
    match lastInstruction with
    | None => push instructions (ProcedureOfpRouteChunk (via_airway fix_))
    | Some li =>
        if negb (isProcedure li)
        then push instructions (ProcedureOfpRouteChunk (via_airway fix_))
        else instructions
    end
  else if holds (isProcedureFor (via_airway fix_)) lastInstruction then
    push instructions (SidEnrouteTransitionOfpRouteChunk (ident fix_) (locationOf fix_))
  else if (isDirectVia (via_airway fix_) || (List.length instructions =? 0)%nat)%bool then
    if String.eqb (type fix_) "ltlg"
    then push instructions
           (LatLongOfpRouteChunk (parseFloat (pos_lat fix_)) (parseFloat (pos_long fix_)))
    else push instructions (WaypointOfpRouteChunk (ident fix_) (locationOf fix_))
  else if negb (holds (isAirwayFor (via_airway fix_)) lastInstruction) then
    let closed :=
      match lastFix with
      | Some lf =>
          if (holds isAirway lastInstruction
              && negb (String.eqb (via_airway fix_) (via_airway lf)))%bool
          then push instructions (AirwayTerminationOfpRouteChunk (ident lf))
          else instructions
      | None => instructions
      end in
    push closed (AirwayOfpRouteChunk (via_airway fix_) (locationOf fix_))
  else instructions.

(** [ofp.navlog[i + 1]?.via_airway !== fix.via_airway]. *)
Definition viaDiffers (next : option NavlogFix) (fix_ : NavlogFix) : bool :=
  match next with
  | Some nf => negb (String.eqb (via_airway nf) (via_airway fix_))
  | None => true
  end.

(** The trailing "End of airway" test of the loop body. *)
Definition closeAirway (next : option NavlogFix) (fix_ : NavlogFix)
    (instructions : list OfpRouteChunk) : list OfpRouteChunk :=
  if (holds isAirway (lastOf instructions) && viaDiffers next fix_)%bool
  then push instructions (AirwayTerminationOfpRouteChunk (ident fix_))
  else instructions.

(** One iteration of the [for] loop, at index [i]. *)
Definition navlogIteration (navlog : list NavlogFix) (i : nat)
    (instructions : list OfpRouteChunk) : list OfpRouteChunk :=
  let lastFix := at_index navlog (Z.of_nat i - 1) in
  match nth_error navlog i with
  | None => instructions
  | Some fix_ =>
      if skipped fix_ then instructions
      else closeAirway (nth_error navlog (S i)) fix_
             (classifyFix lastFix fix_ instructions)
  end.

Definition generateRouteInstructionsFromNavlog (navlog : list NavlogFix)
    : list OfpRouteChunk :=
  fold_left (fun instructions i => navlogIteration navlog i instructions)
            (seq 0 (List.length navlog)) [].

(** The same loop by recursion on the part of the navlog still to be read;
    [lastFix] is the entry just before it. *)
Fixpoint classifyFrom (lastFix : option NavlogFix) (rest : list NavlogFix)
    (instructions : list OfpRouteChunk) : list OfpRouteChunk :=
  match rest with
  | [] => instructions
  | fix_ :: tl =>
      classifyFrom (Some fix_) tl
        (if skipped fix_ then instructions
         else closeAirway (hd_error tl) fix_ (classifyFix lastFix fix_ instructions))
  end.

(** The chunks the specification expects of a navlog of direct fixes: one
    'waypoint' chunk per entry that is not skipped, in order. *)
Definition waypointsOf (navlog : list NavlogFix) : list OfpRouteChunk :=
  map (fun f => WaypointOfpRouteChunk (ident f) (locationOf f))
      (filter (fun f => negb (skipped f)) navlog).

Definition plainFix (f : NavlogFix) : Prop :=
  is_sid_star f <> "1" /\ type f <> "ltlg".

(** The two states of the loop between iterations: every airway emitted so
    far is closed, or the last chunk is an airway still open, the entry to
    come is on it and so is not over. *)
Inductive betweenFixes (rest : list NavlogFix) (instructions : list OfpRouteChunk) : Prop :=
| allClosed :
    airwaysClosed instructions = true -> betweenFixes rest instructions
| lastOpen (before : list OfpRouteChunk) (via : string) (hint : Coordinates)
    (next : NavlogFix) (tl : list NavlogFix) :
    instructions = push before (AirwayOfpRouteChunk via hint) ->
    airwaysClosed before = true ->
    isDirectVia via = false ->
    rest = next :: tl ->
    via_airway next = via ->
    betweenFixes rest instructions.

End Classifier.

(* ================================================================== *)
(** ** Navigation data and the collaborators of the synthesizer *)

(** [Fix] of the navigation database: the adapter reads [ident], [icaoCode]
    and [location]. *)
Record Fix : Type := {
  fix_ident : string;
  icaoCode : string;
  location : Coordinates
}.

Record Airway : Type := {
  airway_ident : string;
  fixes : list Fix
}.

Record ProcedureTransition : Type := {
  transition_ident : string;
  transition_databaseId : string
}.

Record Departure : Type := {
  departure_ident : string;
  departure_databaseId : string;
  enrouteTransitions : list ProcedureTransition
}.

Record Arrival : Type := {
  arrival_ident : string;
  arrival_databaseId : string
}.

(** An element of the flight plan: a discontinuity, or a leg with its
    [terminationWaypoint()] (possibly none). *)
Inductive FlightPlanElement : Type :=
| Discontinuity
| Leg (terminationWaypoint : option Fix).

Definition isDiscontinuity (e : FlightPlanElement) : bool :=
  match e with Discontinuity => true | Leg _ => false end.

(** An entry of [pendingAirways.elements]. *)
Record PendingAirwayElement : Type := {
  airway : option Airway;
  to : option Fix
}.

(** The segments whose [legCount] the adapter adds up. *)
Inductive FlightPlanSegment : Type :=
| originSegment
| departureRunwayTransitionSegment
| departureSegment
| departureEnrouteTransitionSegment
| enrouteSegment.

(** What the adapter calls on [flightPlanService], on [flightPlanService.uplink]
    and on [plan.pendingAirways].  [FlightPlan] is the state of the uplink
    plan, [PendingAirways] the state of an airway entry in progress; an
    [undefined] fix or airway handed to a mutation is [None], and [elementAt]
    is [None] where the plan has no element to give.  An airway entry
    accumulates on its own and reaches the plan through [finalize] only. *)
Class FlightPlanService (FlightPlan PendingAirways : Type) : Type := {
  legCount : FlightPlanSegment -> FlightPlan -> nat;
  allLegs : FlightPlan -> list FlightPlanElement;
  elementAt : FlightPlan -> Z -> option FlightPlanElement;
  originDeparture : FlightPlan -> option Departure;
  nextWaypoint : Z -> option Fix -> FlightPlan -> FlightPlan;
  setDepartureProcedure : string -> FlightPlan -> FlightPlan;
  setArrival : string -> FlightPlan -> FlightPlan;
  setDepartureEnrouteTransition : string -> FlightPlan -> FlightPlan;
  startAirwayEntry : Z -> FlightPlan -> PendingAirways;
  elements : PendingAirways -> list PendingAirwayElement;
  thenAirway : option Airway -> PendingAirways -> PendingAirways;
  thenTo : option Fix -> PendingAirways -> PendingAirways;
  finalize : PendingAirways -> FlightPlan -> FlightPlan
}.

(** [NavigationDatabaseService.activeDatabase] and its backend. *)
Class NavigationDatabase : Type := {
  getDepartures : string -> string -> list Departure;
  getArrivals : string -> list Arrival;
  searchAllFix : string -> list Fix;
  searchAirway : string -> Fix -> list Airway
}.

(** The fields of [OfpRoute] the chunk loop reads, with the chunks. *)
Record OfpRoute : Type := {
  from_ident : string;
  from_rwy : string;
  to_ident : string;
  to_rwy : string;
  altn : string;
  chunks : list OfpRouteChunk;
  callsign : string
}.

(* ================================================================== *)
(** ** Exceptions and the synthesis monad *)

(** One constructor per [throw] of the chunk loop, and [TypeError] for a
    property read on [undefined]. *)
Inductive UplinkError : Type :=
| ProcedureNotAtStartOrEnd
| NoFixesForSidEnrouteTransition (ident : string)
| NoFixesForWaypoint (ident : string)
| NoAirwaysAtFix (fixIdent : string) (ident : string)
| NoSearchFix (ident : string)
| NoFixesForAirwayTermination (ident : string)
| TypeError.

(** The error conditions of the specification. *)
Inductive ErrorKind : Type := InvalidSequence | NotFound | RuntimeFault.

Definition errorKind (e : UplinkError) : ErrorKind :=
  match e with
  | ProcedureNotAtStartOrEnd => InvalidSequence
  | NoFixesForSidEnrouteTransition _ | NoFixesForWaypoint _
  | NoAirwaysAtFix _ _ | NoSearchFix _ | NoFixesForAirwayTermination _ => NotFound
  | TypeError => RuntimeFault
  end.

Inductive Completion (A : Type) : Type :=
| Normal (a : A)
| Thrown (e : UplinkError).

Arguments Normal {A} a.
Arguments Thrown {A} e.

Module UplinkMonad.

(** A computation over a state [S] that completes normally or throws; the
    state reached at a throw is kept, as mutations are not rolled back. *)
Definition M (S A : Type) : Type := S -> Completion A * S.

Definition ret {S A : Type} (a : A) : M S A := fun s => (Normal a, s).

Definition bind {S A B : Type} (m : M S A) (k : A -> M S B) : M S B :=
  fun s => match m s with
           | (Normal a, s') => k a s'
           | (Thrown e, s') => (Thrown e, s')
           end.

Definition throw {S A : Type} (e : UplinkError) : M S A :=
  fun s => (Thrown e, s).

Definition get {S : Type} : M S S := fun s => (Normal s, s).

Definition modify {S : Type} (f : S -> S) : M S unit :=
  fun s => (Normal tt, f s).

(** A value that must not be [undefined] where it is dereferenced. *)
Definition defined {S A : Type} (o : option A) : M S A :=
  match o with Some a => ret a | None => throw TypeError end.

Declare Scope uplink_scope.
Delimit Scope uplink_scope with uplink.

Notation "x <- m ;; k" := (bind m (fun x => k))
  (at level 100, m at next level, right associativity) : uplink_scope.
Notation "m ;; k" := (bind m (fun _ => k))
  (at level 100, right associativity) : uplink_scope.

End UplinkMonad.

Import UplinkMonad.
Local Open Scope uplink_scope.

(* ================================================================== *)
(** ** The route synthesizer: the chunk loop of [uplinkFlightPlanFromSimbrief] *)

Section Synthesizer.

Context {FlightPlan PendingAirways : Type}.
Context {service : FlightPlanService FlightPlan PendingAirways}.
Context {database : NavigationDatabase}.

(** [distanceTo] of msfs-geo and [fms.createLatLonWaypoint(...).waypoint]. *)
Variable distanceTo : Coordinates -> Coordinates -> number.
Variable createLatLonWaypoint : Coordinates -> Fix.

(** What the loop reads and writes: [flightPlanService.uplink], its
    [pendingAirways] field and the local [insertHead]. *)
Record UplinkState : Type := {
  uplink : FlightPlan;
  pendingAirways : option PendingAirways;
  insertHead : Z
}.

Definition Uplink (A : Type) : Type := M UplinkState A.

Definition setInsertHead (h : Z) : Uplink unit :=
  modify (fun s => {| uplink := uplink s;
                      pendingAirways := pendingAirways s;
                      insertHead := h |}).

Definition setUplink (f : FlightPlan -> FlightPlan) : Uplink unit :=
  modify (fun s => {| uplink := f (uplink s);
                      pendingAirways := pendingAirways s;
                      insertHead := insertHead s |}).

Definition setPendingAirways (p : option PendingAirways) : Uplink unit :=
  modify (fun s => {| uplink := uplink s;
                      pendingAirways := p;
                      insertHead := insertHead s |}).

(** The sum of the five leg counts. *)
Definition legsUpToEnroute (plan : FlightPlan) : Z :=
  Z.of_nat (legCount originSegment plan)
  + Z.of_nat (legCount departureRunwayTransitionSegment plan)
  + Z.of_nat (legCount departureSegment plan)
  + Z.of_nat (legCount departureEnrouteTransitionSegment plan)
  + Z.of_nat (legCount enrouteSegment plan).

(** The value [setInsertHeadToEndOfEnroute] gives to [insertHead]. *)
Definition endOfEnroute (plan : FlightPlan) : Z :=
  let head := legsUpToEnroute plan - 1 in
  if (1 <? legCount enrouteSegment plan)%nat then
    if holds isDiscontinuity (at_index (allLegs plan) head)
    then head - 1 else head
  else head.

Definition setInsertHeadToEndOfEnroute : Uplink unit :=
  s <- get ;; setInsertHead (endOfEnroute (uplink s)).

Definition ensureAirwaysFinalized : Uplink unit :=
  s <- get ;;
  match pendingAirways s with
  | Some pending =>
      setUplink (finalize pending) ;;
      setPendingAirways None ;;
      setInsertHeadToEndOfEnroute
  | None => ret tt
  end.

(** The loop of [pickFix]: [i] is the index of the head of [rest]. *)
Fixpoint pickFixLoop (rest : list Fix) (locationHint : Coordinates) (i : Z)
    (minDistance : number) (minDistanceIndex : Z) : Z :=
  match rest with
  | [] => minDistanceIndex
  | fix_ :: tl =>
      let distance := distanceTo (location fix_) locationHint in
      if number_lt distance minDistance
      then pickFixLoop tl locationHint (i + 1) distance i
      else pickFixLoop tl locationHint (i + 1) minDistance minDistanceIndex
  end.

Definition pickFix (candidates : list Fix) (locationHint : Coordinates) : option Fix :=
  at_index candidates (pickFixLoop candidates locationHint 0 MAX_SAFE_INTEGER (-1)).

(** The loop of [pickAirway]; [None] when [airway.fixes[0]] is [undefined]
    and reading its [location] throws. *)
Fixpoint pickAirwayLoop (rest : list Airway) (locationHint : Coordinates) (i : Z)
    (minDistance : number) (minDistanceIndex : Z) : option Z :=
  match rest with
  | [] => Some minDistanceIndex
  | airway_ :: tl =>
      match at_index (fixes airway_) 0 with
      | None => None
      | Some first =>
          let distance := distanceTo (location first) locationHint in
          if number_lt distance minDistance
          then pickAirwayLoop tl locationHint (i + 1) distance i
          else pickAirwayLoop tl locationHint (i + 1) minDistance minDistanceIndex
      end
  end.

Definition pickAirway (airways : list Airway) (locationHint : Coordinates)
    : Uplink (option Airway) :=
  k <- defined (pickAirwayLoop airways locationHint 0 MAX_SAFE_INTEGER (-1)) ;;
  ret (at_index airways k).

(** [fix.ident === it.ident && fix.icaoCode === it.icaoCode]. *)
Definition sameFix (a b : Fix) : bool :=
  (String.eqb (fix_ident a) (fix_ident b) && String.eqb (icaoCode a) (icaoCode b))%bool.

(** [pickAirwayFix]: the first of [fixes] found on the airway. *)
Definition pickAirwayFix (airway_ : Airway) (candidates : list Fix) : option Fix :=
  find_first (fun it => existsb (fun fix_ => sameFix fix_ it) (fixes airway_)) candidates.

(** The shared tail of the 'waypoint' case and of the 'sidEnrouteTransition'
    case without procedures: look the fix up, insert it at [insertHead]. *)
Definition insertFixByIdent (ident : string) (locationHint : Coordinates)
    (notFound : UplinkError) : Uplink unit :=
  let candidates := searchAllFix ident in
  if (0 <? List.length candidates)%nat then
    s <- get ;;
    setUplink (nextWaypoint (insertHead s)
                 (if (1 <? List.length candidates)%nat
                  then pickFix candidates locationHint
                  else at_index candidates 0)) ;;
    setInsertHead (insertHead s + 1)
  else throw notFound.

Section Chunk.

Variable doUplinkProcedures : bool.
Variable route : OfpRoute.

Definition procedureChunk (i : nat) (ident : string) : Uplink unit :=
  if negb doUplinkProcedures then ret tt
  else if (negb (Z.of_nat i =? 0)
           && negb (Z.of_nat i =? Z.of_nat (List.length (chunks route)) - 1))%bool
  then throw ProcedureNotAtStartOrEnd
  else if (Z.of_nat i =? 0) then
    let departureCandidates :=
      filter (fun it => String.eqb (departure_ident it) ident)
             (getDepartures (from_ident route) (from_rwy route)) in
    match departureCandidates with
    | [candidate] =>
        setUplink (setDepartureProcedure (departure_databaseId candidate)) ;;
        setInsertHeadToEndOfEnroute
    | _ => ret tt
    end
  else
    let arrivalCandidates :=
      filter (fun it => String.eqb (arrival_ident it) ident)
             (getArrivals (to_ident route)) in
    match arrivalCandidates with
    | [candidate] =>
        setUplink (setArrival (arrival_databaseId candidate)) ;;
        setInsertHeadToEndOfEnroute
    | _ => ret tt
    end.

Definition sidEnrouteTransitionChunk (ident : string) (locationHint : Coordinates)
    : Uplink unit :=
  if negb doUplinkProcedures then
    insertFixByIdent ident locationHint (NoFixesForSidEnrouteTransition ident)
  else
    s <- get ;;
    departure <- defined (originDeparture (uplink s)) ;;
    let candidateTransitions :=
      filter (fun it => String.eqb (transition_ident it) ident)
             (enrouteTransitions departure) in
    match candidateTransitions with
    | [candidate] =>
        setUplink (setDepartureEnrouteTransition (transition_databaseId candidate)) ;;
        setInsertHeadToEndOfEnroute
    | _ => ret tt
    end.

(** [if (insertHead === -1) setInsertHeadToEndOfEnroute()]. *)
Definition establishInsertHead : Uplink unit :=
  s <- get ;;
  if insertHead s =? -1 then setInsertHeadToEndOfEnroute else ret tt.

Definition waypointChunk (ident : string) (locationHint : Coordinates) : Uplink unit :=
  establishInsertHead ;;
  insertFixByIdent ident locationHint (NoFixesForWaypoint ident).

Definition latlongChunk (lat long : number) : Uplink unit :=
  establishInsertHead ;;
  let storedWaypoint := createLatLonWaypoint {| lat := lat; long := long |} in
  s <- get ;;
  setUplink (nextWaypoint (insertHead s) (Some storedWaypoint)) ;;
  setInsertHead (insertHead s + 1).

(** [tailElement.to ?? tailElement.airway?.fixes[tailElement.airway.fixes.length - 1]]. *)
Definition tailFix (tailElement : PendingAirwayElement) : option Fix :=
  match to tailElement with
  | Some fix_ => Some fix_
  | None =>
      match airway tailElement with
      | Some airway_ => lastOf (fixes airway_)
      | None => None
      end
  end.

Definition airwayChunk (ident : string) (locationHint : Coordinates) : Uplink unit :=
  s <- get ;;
  airwaySearchFix <-
    match pendingAirways s with
    | None =>
        setPendingAirways (Some (startAirwayEntry (insertHead s) (uplink s))) ;;
        legAtInsertHead <- defined (elementAt (uplink s) (insertHead s)) ;;
        match legAtInsertHead with
        | Leg terminationWaypoint => ret terminationWaypoint
        | Discontinuity => ret None
        end
    | Some pending =>
        tailElement <- defined (lastOf (elements pending)) ;;
        ret (tailFix tailElement)
    end ;;
  match airwaySearchFix with
  | Some searchFix =>
      let airways := searchAirway ident searchFix in
      if (0 <? List.length airways)%nat then
        s' <- get ;;
        pending <- defined (pendingAirways s') ;;
        picked <- pickAirway airways locationHint ;;
        setPendingAirways (Some (thenAirway picked pending))
      else throw (NoAirwaysAtFix (fix_ident searchFix) ident)
  | None => throw (NoSearchFix ident)
  end.

Definition airwayTerminationChunk (ident : string) : Uplink unit :=
  s <- get ;;
  match pendingAirways s with
  | None => setPendingAirways (Some (startAirwayEntry (insertHead s) (uplink s)))
  | Some _ => ret tt
  end ;;
  s' <- get ;;
  pending <- defined (pendingAirways s') ;;
  tailElement <- defined (lastOf (elements pending)) ;;
  let tailAirway := airway tailElement in
  let candidates := searchAllFix ident in
  if (0 <? List.length candidates)%nat then
    airway_ <- defined tailAirway ;;
    setPendingAirways (Some (thenTo (pickAirwayFix airway_ candidates) pending)) ;;
    ensureAirwaysFinalized
  else throw (NoFixesForAirwayTermination ident).

(** The [switch] on [chunk.instruction]; [i] is the loop index. *)
Definition processChunk (i : nat) (chunk : OfpRouteChunk) : Uplink unit :=
  match chunk with
  | ProcedureOfpRouteChunk ident => procedureChunk i ident
  | SidEnrouteTransitionOfpRouteChunk ident locationHint =>
      sidEnrouteTransitionChunk ident locationHint
  | WaypointOfpRouteChunk ident locationHint => waypointChunk ident locationHint
  | LatLongOfpRouteChunk lat long => latlongChunk lat long
  | AirwayOfpRouteChunk ident locationHint => airwayChunk ident locationHint
  | AirwayTerminationOfpRouteChunk ident => airwayTerminationChunk ident
  | DctOfpRouteChunk | StarEnrouteTransitionOfpRouteChunk _ => ret tt
  end.

(** The [for] loop from index [i] on, over the chunks not yet processed. *)
Fixpoint uplinkLoop (i : nat) (rest : list OfpRouteChunk) : Uplink unit :=
  match rest with
  | [] => ret tt
  | chunk :: tl => processChunk i chunk ;; uplinkLoop (S i) tl
  end.

(** The states in which the loop enters each iteration it reaches. *)
Fixpoint statesAtChunks (i : nat) (rest : list OfpRouteChunk) (s : UplinkState)
    : list UplinkState :=
  match rest with
  | [] => []
  | chunk :: tl =>
      s :: match processChunk i chunk s with
           | (Normal _, s') => statesAtChunks (S i) tl s'
           | (Thrown _, _) => []
           end
  end.

(** [uplinkFlightPlanFromSimbrief] from [let insertHead = -1] on; the
    city pair, runways and performance data are already on the plan. *)
Definition uplinkFlightPlanFromSimbrief : Uplink unit :=
  setInsertHead (-1) ;;
  setInsertHeadToEndOfEnroute ;;
  uplinkLoop 0 (chunks route).

(** The state in which the loop starts on a given plan. *)
Definition initialState (plan : FlightPlan) (pending : option PendingAirways)
    : UplinkState :=
  {| uplink := plan; pendingAirways := pending; insertHead := endOfEnroute plan |}.

(** The loop has processed the chunks [done] without a throw, from the state
    in which it starts on [plan], and stands in state [s]. *)
Definition reaches (plan : FlightPlan) (pending : option PendingAirways)
    (done : list OfpRouteChunk) (s : UplinkState) : Prop :=
  uplinkLoop 0%nat done (initialState plan pending) = (Normal tt, s).

(** [insertHead] is never below -1, and is -1 only while that is what
    [setInsertHeadToEndOfEnroute] computes on the plan as it stands. *)
Definition cursorSettled (s : UplinkState) : Prop :=
  -1 <= insertHead s /\ (insertHead s = -1 -> endOfEnroute (uplink s) = -1).

(** How a chunk may move [insertHead]: not at all (and then the plan is the
    same), forward by one, or to the end of the enroute legs. *)
Definition cursorMove (s s' : UplinkState) : Prop :=
  (uplink s' = uplink s /\ insertHead s' = insertHead s)
  \/ insertHead s' = insertHead s + 1
  \/ insertHead s' = endOfEnroute (uplink s').

End Chunk.

(** [best] at index [k] is nearest among [seen]: no candidate is strictly
    nearer, and it is strictly nearer than every candidate before it whose
    distance is a number. *)
Definition nearestOf (locationHint : Coordinates) (seen : list Fix)
    (k : nat) (best : Fix) : Prop :=
  nth_error seen k = Some best
  /\ (forall g, In g seen ->
        number_lt (distanceTo (location g) locationHint)
                  (distanceTo (location best) locationHint) = false)
  /\ (forall j g, (j < k)%nat -> nth_error seen j = Some g ->
        distanceTo (location g) locationHint = NaN
        \/ number_lt (distanceTo (location best) locationHint)
                     (distanceTo (location g) locationHint) = true).

(** The state after a fix went in at [insertHead]. *)
Definition inserted (fix_ : option Fix) (s : UplinkState) : UplinkState :=
  {| uplink := nextWaypoint (insertHead s) fix_ (uplink s);
     pendingAirways := pendingAirways s;
     insertHead := insertHead s + 1 |}.

(** The first fix of each airway that has one. *)
Definition firstFixes (airways : list Airway) : list Fix :=
  flat_map (fun a => firstn 1 (fixes a)) airways.

(** A chunk that puts one leg in: a 'latlong' chunk, or a 'waypoint' chunk
    whose identifier the database knows. *)
Definition insertsOneLeg (c : OfpRouteChunk) : Prop :=
  match c with
  | WaypointOfpRouteChunk ident _ => searchAllFix ident <> []
  | LatLongOfpRouteChunk _ _ => True
  | _ => False
  end.

End Synthesizer.

(* ================================================================== *)
(** ** Reference collaborators

    Small executable collaborators on which the properties below are run:
    a reader of plain decimal text, a planar distance, a flight plan kept as
    a list of enroute elements behind a fixed number of origin legs, and a
    navigation database kept as tables. *)

Module Reference.

Definition digitValue (c : ascii) : option Z :=
  let n := nat_of_ascii c in
  if (Nat.leb 48 n && Nat.leb n 57)%bool then Some (Z.of_nat n - 48) else None.

(** Digits read from the front of [s]: their value, their count, the rest. *)
Fixpoint readDigits (s : string) (acc : Z) (count : nat) : Z * nat * string :=
  match s with
  | String c tl =>
      match digitValue c with
      | Some d => readDigits tl (10 * acc + d) (S count)
      | None => (acc, count, s)
      end
  | EmptyString => (acc, count, s)
  end.

Definition readUnsigned (s : string) : number :=
  let '(whole, wholeDigits, rest) := readDigits s 0 0%nat in
  let '(mantissa, fractionDigits) :=
    match rest with
    | String "." tl =>
        let '(all, n, _) := readDigits tl whole 0%nat in (all, n)
    | _ => (whole, 0%nat)
    end in
  if (wholeDigits + fractionDigits =? 0)%nat then NaN
  else Finite (mantissa # Pos.of_nat (10 ^ fractionDigits)).

Definition negate (x : number) : number :=
  match x with
  | NaN => NaN
  | NegInfinity => PosInfinity
  | PosInfinity => NegInfinity
  | Finite q => Finite (- q)
  end.

(** [parseFloat] on plain decimal text: sign, digits, optional fraction;
    [NaN] when no digit is there. *)
Definition parseDecimalText (s : string) : number :=
  match s with
  | String "-" tl => negate (readUnsigned tl)
  | String "+" tl => readUnsigned tl
  | _ => readUnsigned s
  end.

(** A distance on the plane, [NaN] as soon as a coordinate is not finite. *)
Definition planarDistance (a b : Coordinates) : number :=
  match lat a, long a, lat b, long b with
  | Finite x1, Finite y1, Finite x2, Finite y2 =>
      Finite (Qabs (x1 - x2) + Qabs (y1 - y2))
  | _, _, _, _ => NaN
  end.

Definition latLonWaypoint (c : Coordinates) : Fix :=
  {| fix_ident := "LL"; icaoCode := ""; location := c |}.

(** The enroute elements of a plan; the origin legs are in front of them. *)
Definition ListPlan : Type := list FlightPlanElement.

Record ListPendingAirways : Type := {
  anchor : Z;
  entries : list PendingAirwayElement
}.

Definition insertAt {A : Type} (n : nat) (xs : list A) (l : list A) : list A :=
  firstn n l ++ xs ++ skipn n l.

Fixpoint setLastTo (fix_ : option Fix) (l : list PendingAirwayElement)
    : list PendingAirwayElement :=
  match l with
  | [] => []
  | [e] => [{| airway := airway e; to := fix_ |}]
  | e :: tl => e :: setLastTo fix_ tl
  end.

(** A flight plan service over [ListPlan] with [originLegs] legs in the
    origin segment and every other leg in the enroute segment. *)
Definition listService (originLegs : nat)
    : FlightPlanService ListPlan ListPendingAirways :=
  {| legCount := fun segment plan =>
       match segment with
       | originSegment => originLegs
       | enrouteSegment => List.length plan
       | _ => 0%nat
       end;
     allLegs := fun plan => repeat (Leg None) originLegs ++ plan;
     elementAt := fun plan i => at_index (repeat (Leg None) originLegs ++ plan) i;
     originDeparture := fun _ => None;
     nextWaypoint := fun i fix_ plan =>
       insertAt (Z.to_nat (i + 1 - Z.of_nat originLegs)) [Leg fix_] plan;
     setDepartureProcedure := fun _ plan => plan;
     setArrival := fun _ plan => plan;
     setDepartureEnrouteTransition := fun _ plan => plan;
     startAirwayEntry := fun i _ => {| anchor := i; entries := [] |};
     elements := entries;
     thenAirway := fun airway_ pending =>
       {| anchor := anchor pending;
          entries := entries pending ++ [{| airway := airway_; to := None |}] |};
     thenTo := fun fix_ pending =>
       {| anchor := anchor pending; entries := setLastTo fix_ (entries pending) |};
     finalize := fun pending plan =>
       insertAt (Z.to_nat (anchor pending + 1 - Z.of_nat originLegs))
                (map (fun e => Leg (to e)) (entries pending)) plan |}.

(** A navigation database over a table of fixes and a table of airways. *)
Definition tableDatabase (fixTable : list Fix) (airwayTable : list Airway)
    : NavigationDatabase :=
  {| getDepartures := fun _ _ => [];
     getArrivals := fun _ => [];
     searchAllFix := fun ident =>
       filter (fun f => String.eqb (fix_ident f) ident) fixTable;
     searchAirway := fun ident fix_ =>
       filter (fun a => (String.eqb (airway_ident a) ident
                         && existsb (sameFix fix_) (fixes a))%bool) airwayTable |}.

Definition at_ (x y : Z) : Coordinates :=
  {| lat := Finite (x # 1); long := Finite (y # 1) |}.

Definition fixAt (ident region : string) (x y : Z) : Fix :=
  {| fix_ident := ident; icaoCode := region; location := at_ x y |}.

Definition navlogFix (ident via sidStar : string) : NavlogFix :=
  {| ident := ident; type := "wpt"; pos_lat := "10.5"; pos_long := "-20.25";
     via_airway := via; is_sid_star := sidStar |}.

Definition routeWith (chunks : list OfpRouteChunk) : OfpRoute :=
  {| from_ident := "LFPG"; from_rwy := "26R"; to_ident := "EGLL"; to_rwy := "27L";
     altn := "EGKK"; chunks := chunks; callsign := "FBW123" |}.

End Reference.

(* ================================================================== *)
(** ** Example routes and states on the reference collaborators *)

Module Examples.

Import Reference.

Definition originOnly : FlightPlanService ListPlan ListPendingAirways := listService 1.
Definition noLegs : FlightPlanService ListPlan ListPendingAirways := listService 0.

Definition fixA : Fix := fixAt "A" "K1" 1 1.
Definition fixB : Fix := fixAt "B" "K1" 2 2.
Definition nearXYZ : Fix := fixAt "XYZ" "K1" 3 2.
Definition farXYZ : Fix := fixAt "XYZ" "K2" 30 20.
Definition fixQ : Fix := fixAt "Q" "K3" 7 7.

Definition airwayAB : Airway := {| airway_ident := "AWY1"; fixes := [fixA; fixB] |}.

Definition fixTable : NavigationDatabase :=
  tableDatabase [fixA; farXYZ; fixB; nearXYZ; fixQ] [airwayAB].

Definition hintAt0 : Coordinates := at_ 0 0.

Definition start : @UplinkState ListPlan ListPendingAirways :=
  {| uplink := []; pendingAirways := None; insertHead := -1 |}.

Definition procedureSecond : OfpRoute :=
  routeWith [ WaypointOfpRouteChunk "A" hintAt0;
               ProcedureOfpRouteChunk "SIDX";
               WaypointOfpRouteChunk "B" hintAt0 ].

Definition unknownSecond : OfpRoute :=
  routeWith [ WaypointOfpRouteChunk "A" hintAt0;
               WaypointOfpRouteChunk "ABCDE" hintAt0;
               WaypointOfpRouteChunk "B" hintAt0 ].

Definition ambiguousFirst : OfpRoute :=
  routeWith [ WaypointOfpRouteChunk "XYZ" hintAt0 ].

Definition afterA : @UplinkState ListPlan ListPendingAirways :=
  {| uplink := [Leg (Some fixA)]; pendingAirways := None; insertHead := 1 |}.

Definition onAirway : @UplinkState ListPlan ListPendingAirways :=
  {| uplink := [Leg (Some fixA)];
     pendingAirways :=
       Some {| anchor := 1; entries := [{| airway := Some airwayAB; to := None |}] |};
     insertHead := 1 |}.

Definition malformed : NavlogFix :=
  {| ident := "XYZ"; type := "wpt"; pos_lat := "abc"; pos_long := "N/A";
     via_airway := "DCT"; is_sid_star := "0" |}.

Definition directNavlog : list NavlogFix :=
  [ navlogFix "D" "DCT" "0"; navlogFix "TOC" "DCT" "0"; navlogFix "G" "DCT" "0" ].

Definition airwayNavlog : list NavlogFix :=
  [ navlogFix "A" "AWY1" "0"; navlogFix "B" "AWY1" "0" ].


Definition nanHint : Coordinates := {| lat := NaN; long := NaN |}.

Definition atOrigin : @UplinkState ListPlan ListPendingAirways :=
  {| uplink := []; pendingAirways := None; insertHead := 0 |}.

Definition waypointA : OfpRouteChunk :=
  WaypointOfpRouteChunk "A" (locationOf parseDecimalText (navlogFix "A" "AWY1" "0")).

Definition airwayAtB : OfpRouteChunk :=
  AirwayOfpRouteChunk "AWY1" (locationOf parseDecimalText (navlogFix "B" "AWY1" "0")).

Definition directRoute : OfpRoute :=
  routeWith [ WaypointOfpRouteChunk "A" hintAt0;
              LatLongOfpRouteChunk (Finite (10 # 1)) (Finite (20 # 1));
              WaypointOfpRouteChunk "B" hintAt0 ].

Definition sidRoute : OfpRoute :=
  routeWith [ ProcedureOfpRouteChunk "SIDX";
              SidEnrouteTransitionOfpRouteChunk "A" hintAt0 ].

Definition entryOnAB : ListPendingAirways :=
  {| anchor := 1; entries := [{| airway := Some airwayAB; to := None |}] |}.

End Examples.

(* ================================================================== *)
(** ** Array helpers *)

Lemma at_index_nat {A : Type} (arr : list A) (n : nat) :
  at_index arr (Z.of_nat n) = nth_error arr n.
Proof.
  unfold at_index.
  destruct (Z.ltb_spec (Z.of_nat n) 0) as [Hneg | _]; [lia |].
  now rewrite Nat2Z.id.
Qed.

Lemma lastOf_nil {A : Type} : lastOf (@nil A) = None.
Proof. reflexivity. Qed.

Lemma lastOf_push {A : Type} (arr : list A) (x : A) : lastOf (push arr x) = Some x.
Proof.
  unfold lastOf, push.
  rewrite length_app, Nat.add_comm. cbn [List.length Nat.add].
  replace (Z.of_nat (S (List.length arr)) - 1) with (Z.of_nat (List.length arr)) by lia.
  rewrite at_index_nat, nth_error_app2 by lia.
  now rewrite Nat.sub_diag.
Qed.

Lemma at_index_before {A : Type} (pre rest : list A) :
  at_index (pre ++ rest) (Z.of_nat (List.length pre) - 1) = lastOf pre.
Proof.
  unfold lastOf, at_index.
  destruct (Z.ltb_spec (Z.of_nat (List.length pre) - 1) 0) as [Hneg | Hpos]; [reflexivity |].
  apply nth_error_app1. lia.
Qed.

(* ================================================================== *)
(** ** Properties of the navlog classifier *)

Section ClassifierProperties.

Variable parseFloat : string -> number.

Local Abbreviation waypoints := (waypointsOf parseFloat).

(** The indexed loop reads the navlog exactly as the recursion on its
    remaining part does. *)
Lemma navlog_loop_from (pre rest : list NavlogFix) (instructions : list OfpRouteChunk) :
  fold_left (fun ins i => navlogIteration parseFloat (pre ++ rest) i ins)
            (seq (List.length pre) (List.length rest)) instructions
  = classifyFrom parseFloat (lastOf pre) rest instructions.
Proof.
  revert pre instructions.
  induction rest as [| fix_ tl IH]; intros pre instructions; [reflexivity |].
  cbn [List.length seq fold_left classifyFrom].
  assert (Hstep : navlogIteration parseFloat (pre ++ fix_ :: tl) (List.length pre) instructions
                  = if skipped fix_ then instructions
                    else closeAirway (hd_error tl) fix_
                           (classifyFix parseFloat (lastOf pre) fix_ instructions)).
  { assert (Hnext : nth_error (pre ++ fix_ :: tl) (S (List.length pre)) = hd_error tl).
    { rewrite nth_error_app2 by lia.
      replace (S (List.length pre) - List.length pre)%nat with 1%nat by lia.
      now destruct tl. }
    assert (Hhere : nth_error (pre ++ fix_ :: tl) (List.length pre) = Some fix_).
    { rewrite nth_error_app2 by lia. now rewrite Nat.sub_diag. }
    unfold navlogIteration.
    now rewrite at_index_before, Hnext, Hhere. }
  rewrite Hstep.
  specialize (IH (pre ++ [fix_])).
  rewrite <- app_assoc in IH. cbn [app] in IH.
  rewrite length_app, Nat.add_comm in IH. cbn [List.length Nat.add] in IH.
  rewrite IH. f_equal.
  exact (lastOf_push pre fix_).
Qed.

Lemma classify_unfold (navlog : list NavlogFix) :
  generateRouteInstructionsFromNavlog parseFloat navlog = classifyFrom parseFloat None navlog [].
Proof. exact (navlog_loop_from [] navlog []). Qed.

(** Nothing is emitted for a run of skipped entries. *)
Lemma classifyFrom_skipped (rest : list NavlogFix) :
  forall lastFix instructions,
    Forall (fun f => skipped f = true) rest ->
    classifyFrom parseFloat lastFix rest instructions = instructions.
Proof.
  induction rest as [| fix_ tl IH]; intros lastFix instructions Hall; [reflexivity |].
  inversion Hall as [| ? ? Hskip Htl]; subst.
  cbn [classifyFrom]. rewrite Hskip. now apply IH.
Qed.

Lemma lastOf_waypoints (instructions : list OfpRouteChunk) :
  Forall (fun c => isWaypoint c = true) instructions ->
  forall p : OfpRouteChunk -> bool,
    (forall c, isWaypoint c = true -> p c = false) ->
    holds p (lastOf instructions) = false.
Proof.
  intros Hall p Hp.
  destruct instructions as [| c tl] using rev_ind; [reflexivity |].
  change (tl ++ [c]) with (push tl c). rewrite lastOf_push. cbn.
  apply Hp. apply Forall_app in Hall as [_ Hc]. now inversion Hc.
Qed.

Lemma closeAirway_not_airway next fix_ instructions :
  holds isAirway (lastOf instructions) = false ->
  closeAirway next fix_ instructions = instructions.
Proof. intros Hlast. unfold closeAirway. now rewrite Hlast. Qed.

(** A plain fix that takes the direct branch gives one 'waypoint' chunk. *)
Lemma classifyFix_direct lastFix fix_ instructions :
  plainFix fix_ ->
  Forall (fun c => isWaypoint c = true) instructions ->
  (isDirectVia (via_airway fix_) = true \/ instructions = []) ->
  forall next,
    closeAirway next fix_ (classifyFix parseFloat lastFix fix_ instructions)
    = push instructions (WaypointOfpRouteChunk (ident fix_) (locationOf parseFloat fix_)).
Proof.
  intros [Hsid Hltlg] Hall Hdirect next.
  apply String.eqb_neq in Hsid. apply String.eqb_neq in Hltlg.
  assert (Hbranch : (isDirectVia (via_airway fix_)
                     || (List.length instructions =? 0)%nat)%bool = true).
  { destruct Hdirect as [-> | ->]; [reflexivity | apply orb_true_r]. }
  unfold classifyFix.
  rewrite Hsid, (lastOf_waypoints Hall), Hbranch, Hltlg.
  - apply closeAirway_not_airway. now rewrite lastOf_push.
  - now intros [].
Qed.

Lemma classifyFrom_direct (rest : list NavlogFix) :
  forall lastFix instructions,
    Forall plainFix rest ->
    Forall (fun f => isDirectVia (via_airway f) = true) rest ->
    Forall (fun c => isWaypoint c = true) instructions ->
    classifyFrom parseFloat lastFix rest instructions = instructions ++ waypoints rest.
Proof.
  induction rest as [| fix_ tl IH]; intros lastFix instructions Hplain Hdirect Hall.
  - cbn. now rewrite app_nil_r.
  - inversion Hplain as [| ? ? Hp Hptl]; subst.
    inversion Hdirect as [| ? ? Hd Hdtl]; subst.
    cbn [classifyFrom]. unfold waypointsOf. cbn [filter].
    destruct (skipped fix_) eqn:Hskip; cbn [negb map].
    + now apply IH.
    + rewrite classifyFix_direct by auto.
      rewrite IH; auto.
      * unfold push, waypointsOf. now rewrite <- app_assoc.
      * apply Forall_app. split; [assumption | now constructor].
Qed.

Lemma filter_nil_all {A : Type} (p : A -> bool) (l : list A) :
  filter p l = [] -> Forall (fun a => p a = false) l.
Proof.
  induction l as [| a tl IH]; cbn; intros Hnil; [constructor |].
  destruct (p a) eqn:Hp; [discriminate |]. constructor; auto.
Qed.

Lemma classifyFrom_single (rest : list NavlogFix) :
  forall lastFix,
    Forall plainFix rest ->
    (List.length (filter (fun f => negb (skipped f)) rest) <= 1)%nat ->
    classifyFrom parseFloat lastFix rest [] = waypoints rest.
Proof.
  induction rest as [| fix_ tl IH]; intros lastFix Hplain Hone; [reflexivity |].
  inversion Hplain as [| ? ? Hp Hptl]; subst.
  cbn [classifyFrom]. unfold waypointsOf. cbn [filter] in *.
  destruct (skipped fix_) eqn:Hskip; cbn [negb map List.length] in *.
  - now apply IH.
  - rewrite classifyFix_direct by auto.
    assert (Hnone : filter (fun f => negb (skipped f)) tl = []).
    { destruct (filter _ tl); [reflexivity | cbn in Hone; lia]. }
    rewrite Hnone. cbn [map].
    apply classifyFrom_skipped.
    apply filter_nil_all in Hnone.
    eapply Forall_impl; [| exact Hnone].
    cbn. intros f Hf. now apply negb_false_iff.
Qed.

(** C1. The navlog [airport; A, B on SIDX marked SID/STAR; C on SIDX not
    marked; D direct; E, F on AWY1; G direct] classifies to exactly the six
    chunks procedure SIDX, SID enroute transition C, waypoint D, airway
    AWY1, airway termination F, waypoint G, in that order; the location
    hints are the parsed coordinates of C, D, E and G. *)
Theorem classify_sid_airway_example :
  forall (airportIdent airportVia airportSidStar : string)
         (latText longText : string -> string),
    let entry ident_ via sidStar :=
      {| ident := ident_; type := "wpt";
         pos_lat := latText ident_; pos_long := longText ident_;
         via_airway := via; is_sid_star := sidStar |} in
    let hint ident_ :=
      {| lat := parseFloat (latText ident_); long := parseFloat (longText ident_) |} in
    generateRouteInstructionsFromNavlog parseFloat
      [ {| ident := airportIdent; type := "apt";
           pos_lat := latText airportIdent; pos_long := longText airportIdent;
           via_airway := airportVia; is_sid_star := airportSidStar |};
        entry "A" "SIDX" "1"; entry "B" "SIDX" "1"; entry "C" "SIDX" "0";
        entry "D" "DCT" "0"; entry "E" "AWY1" "0"; entry "F" "AWY1" "0";
        entry "G" "DCT" "0" ]
    = [ ProcedureOfpRouteChunk "SIDX";
        SidEnrouteTransitionOfpRouteChunk "C" (hint "C");
        WaypointOfpRouteChunk "D" (hint "D");
        AirwayOfpRouteChunk "AWY1" (hint "E");
        AirwayTerminationOfpRouteChunk "F";
        WaypointOfpRouteChunk "G" (hint "G") ].
Proof.
  intros airportIdent airportVia airportSidStar latText longText entry hint.
  rewrite classify_unfold.
  match goal with
  | |- classifyFrom _ _ (?airport :: _) _ = _ =>
      assert (Hskip : skipped airport = true) by apply orb_true_r;
      cbn [classifyFrom]; rewrite Hskip
  end.
  reflexivity.
Qed.

(** C2, as amended. When every fix carries the same via-identifier, none is
    marked SID/STAR and none has the coordinate type tag, and moreover that
    via-identifier is a direct-routing marker (DCT, DCT*, NAT followed by a
    letter) or at most one fix is left once airports and TOC/TOD are
    skipped, the classifier emits one 'waypoint' chunk per fix that is not
    skipped, in input order, and nothing else. *)
Theorem classify_same_direct_via_only_waypoints :
  forall (navlog : list NavlogFix) (via : string),
    Forall (fun f => via_airway f = via) navlog ->
    Forall (fun f => is_sid_star f <> "1") navlog ->
    Forall (fun f => type f <> "ltlg") navlog ->
    (isDirectVia via = true
     \/ (List.length (filter (fun f => negb (skipped f)) navlog) <= 1)%nat) ->
    generateRouteInstructionsFromNavlog parseFloat navlog = waypoints navlog.
Proof.
  intros navlog via Hvia Hsid Hltlg Hcase.
  assert (Hplain : Forall plainFix navlog).
  { apply Forall_forall. intros f Hin. split.
    - now apply (proj1 (Forall_forall _ _) Hsid).
    - now apply (proj1 (Forall_forall _ _) Hltlg). }
  rewrite classify_unfold.
  destruct Hcase as [Hdirect | Hone].
  - rewrite classifyFrom_direct; auto.
    eapply Forall_impl; [| exact Hvia]. cbn. now intros f ->.
  - now apply classifyFrom_single.
Qed.

(* ------------------------------------------------------------------ *)
(** *** Airways and their terminations *)

Lemma lastOf_cons {A : Type} (a b : A) (tl : list A) :
  lastOf (a :: b :: tl) = lastOf (b :: tl).
Proof.
  unfold lastOf. cbn [List.length].
  replace (Z.of_nat (S (S (List.length tl))) - 1)
    with (Z.of_nat (S (List.length tl))) by lia.
  replace (Z.of_nat (S (List.length tl)) - 1)
    with (Z.of_nat (List.length tl)) by lia.
  now rewrite !at_index_nat.
Qed.

Lemma airwaysClosed_last (instructions : list OfpRouteChunk) :
  airwaysClosed instructions = true ->
  holds isAirway (lastOf instructions) = false.
Proof.
  induction instructions as [| a [| b tl] IH]; intros Hclosed.
  - reflexivity.
  - cbn in Hclosed. cbn. now destruct (isAirway a).
  - rewrite lastOf_cons. apply IH.
    cbn [airwaysClosed] in Hclosed. now apply andb_true_iff in Hclosed as [_ ?].
Qed.

Lemma airwaysClosed_app (instructions added : list OfpRouteChunk) :
  airwaysClosed instructions = true ->
  airwaysClosed added = true ->
  airwaysClosed (instructions ++ added) = true.
Proof.
  intros Hclosed Hadded.
  induction instructions as [| a tl IH]; [assumption |].
  cbn [app airwaysClosed] in *.
  apply andb_true_iff in Hclosed as [Hhead Htl].
  rewrite IH by assumption. rewrite andb_true_r.
  destruct (isAirway a); [| reflexivity].
  destruct tl; [discriminate | exact Hhead].
Qed.

Lemma closeAirway_between fix_ (tl : list NavlogFix) instructions :
  airwaysClosed instructions = true
  \/ (exists before hint,
        instructions = push before (AirwayOfpRouteChunk (via_airway fix_) hint)
        /\ airwaysClosed before = true
        /\ isDirectVia (via_airway fix_) = false) ->
  betweenFixes tl (closeAirway (hd_error tl) fix_ instructions).
Proof.
  intros [Hclosed | (before & hint & -> & Hbefore & Hvia)].
  - rewrite closeAirway_not_airway by now apply airwaysClosed_last.
    now apply allClosed.
  - unfold closeAirway. rewrite lastOf_push. cbn [holds isAirway andb].
    destruct tl as [| next tl']; cbn [hd_error viaDiffers].
    + apply allClosed. unfold push. rewrite <- app_assoc.
      now apply airwaysClosed_app.
    + destruct (String.eqb_spec (via_airway next) (via_airway fix_)) as [Hsame | Hdiff];
        cbn [negb].
      * eapply lastOpen; eauto.
      * apply allClosed. unfold push. rewrite <- app_assoc.
        now apply airwaysClosed_app.
Qed.

Lemma classifyFrom_between (rest : list NavlogFix) :
  forall lastFix instructions,
    Forall (fun f => skipped f = false /\ is_sid_star f <> "1") rest ->
    betweenFixes rest instructions ->
    airwaysClosed (classifyFrom parseFloat lastFix rest instructions) = true.
Proof.
  induction rest as [| fix_ tl IH]; intros lastFix instructions Hall Hstate.
  - destruct Hstate as [Hclosed | ? ? ? ? ? _ _ _ Hrest _]; [exact Hclosed | discriminate].
  - inversion Hall as [| ? ? [Hskip Hsid] Htl]; subst.
    apply String.eqb_neq in Hsid.
    cbn [classifyFrom]. rewrite Hskip.
    apply IH; [assumption |].
    apply closeAirway_between.
    unfold classifyFix. rewrite Hsid.
    destruct Hstate as [Hclosed | before via hint next tl' -> Hbefore Hvia Hrest Hnext].
    + (* every airway is closed *)
      pose proof (airwaysClosed_last _ Hclosed) as Hlast.
      destruct (holds (isProcedureFor (via_airway fix_)) (lastOf instructions)).
      { left. apply airwaysClosed_app; [assumption | reflexivity]. }
      destruct (isDirectVia (via_airway fix_) || (List.length instructions =? 0)%nat)%bool
        eqn:Hdirect.
      { left. destruct (type fix_ =? "ltlg")%string;
          (apply airwaysClosed_app; [assumption | reflexivity]). }
      apply orb_false_iff in Hdirect as [Hdirect _].
      assert (Hnot : holds (isAirwayFor (via_airway fix_)) (lastOf instructions) = false).
      { destruct (lastOf instructions) as [[] |]; cbn in *; congruence. }
      rewrite Hnot. cbn [negb].
      right. exists instructions, (locationOf parseFloat fix_).
      split; [| now split].
      destruct lastFix as [lf |]; [| reflexivity].
      now rewrite Hlast.
    + (* the last chunk is an airway, and this entry is on it *)
      injection Hrest as <- <-.
      rewrite lastOf_push. cbn [holds isProcedureFor isAirwayFor].
      rewrite Hnext, Hvia, String.eqb_refl.
      replace (List.length (push before (AirwayOfpRouteChunk via hint)) =? 0)%nat
        with false
        by (unfold push; rewrite length_app, Nat.add_comm; reflexivity).
      cbn [orb negb].
      right. exists before, hint. now repeat split.
Qed.

(** X1. A navlog with no skipped entry and no entry marked SID/STAR gets each
    of its airways closed: every 'airway' chunk of the output is immediately
    followed by an 'airwayTermination' chunk. *)
Lemma classify_closes_airways (navlog : list NavlogFix) :
  Forall (fun f => skipped f = false /\ is_sid_star f <> "1") navlog ->
  airwaysClosed (generateRouteInstructionsFromNavlog parseFloat navlog) = true.
Proof.
  intros Hall. rewrite classify_unfold.
  apply classifyFrom_between; [assumption |].
  now apply allClosed.
Qed.

(** The close made by the airway branch: when the entries skipped after E
    still carry its airway and a different airway follows, that branch
    emits the termination, at the skipped entry, before the new airway. *)
Lemma classify_airway_closed_by_next_airway :
  forall (latText longText : string -> string),
    let entry ident_ via :=
      {| ident := ident_; type := "wpt";
         pos_lat := latText ident_; pos_long := longText ident_;
         via_airway := via; is_sid_star := "0" |} in
    let hint ident_ :=
      {| lat := parseFloat (latText ident_); long := parseFloat (longText ident_) |} in
    generateRouteInstructionsFromNavlog parseFloat
      [entry "D" "DCT"; entry "E" "AWY1"; entry "TOD" "AWY1"; entry "H" "AWY2"]
    = [ WaypointOfpRouteChunk "D" (hint "D");
        AirwayOfpRouteChunk "AWY1" (hint "E");
        AirwayTerminationOfpRouteChunk "TOD";
        AirwayOfpRouteChunk "AWY2" (hint "H");
        AirwayTerminationOfpRouteChunk "H" ].
Proof. reflexivity. Qed.

(** C3, at the failing input. An airway entered at E, with a TOD marker as
    the last entry on that airway and a direct fix after it, is left open:
    the output holds the 'airway' chunk and no 'airwayTermination'. *)
Theorem classify_airway_left_open_after_marker :
  forall (latText longText : string -> string),
    let entry ident_ via :=
      {| ident := ident_; type := "wpt";
         pos_lat := latText ident_; pos_long := longText ident_;
         via_airway := via; is_sid_star := "0" |} in
    let hint ident_ :=
      {| lat := parseFloat (latText ident_); long := parseFloat (longText ident_) |} in
    let output :=
      generateRouteInstructionsFromNavlog parseFloat
        [entry "D" "DCT"; entry "E" "AWY1"; entry "TOD" "AWY1"; entry "G" "DCT"] in
    output = [ WaypointOfpRouteChunk "D" (hint "D");
               AirwayOfpRouteChunk "AWY1" (hint "E");
               WaypointOfpRouteChunk "G" (hint "G") ]
    /\ existsb isAirway output = true
    /\ existsb isAirwayTermination output = false.
Proof. intros latText longText entry hint output. repeat split. Qed.



(* ------------------------------------------------------------------ *)
(** *** The order of the chunks *)

Lemma wellSequenced_nil : wellSequenced [].
Proof. intros before c after Heq. now destruct before. Qed.

Lemma wellSequenced_push (instructions : list OfpRouteChunk) (c : OfpRouteChunk) :
  wellSequenced instructions ->
  follows (lastOf instructions) c = true ->
  wellSequenced (push instructions c).
Proof.
  intros Hseq Hc before c' after Heq. unfold push in Heq.
  destruct after as [| x after'] using rev_ind.
  - apply app_inj_tail in Heq as [-> ->]. exact Hc.
  - clear IHafter'.
    rewrite app_comm_cons, app_assoc in Heq.
    apply app_inj_tail in Heq as [Heq _].
    eapply Hseq. exact Heq.
Qed.

Lemma lastOf_nonempty {A : Type} (l : list A) :
  (List.length l =? 0)%nat = false -> exists x, lastOf l = Some x.
Proof.
  destruct l as [| a tl] using rev_ind; [discriminate |].
  intros _. exists a. apply (lastOf_push tl a).
Qed.

Lemma classifyFix_wellSequenced lastFix fix_ instructions :
  wellSequenced instructions ->
  wellSequenced (classifyFix parseFloat lastFix fix_ instructions).
Proof.
  intros Hseq. unfold classifyFix.
  destruct (is_sid_star fix_ =? "1")%string.
  { destruct (lastOf instructions) as [li |] eqn:Hlast.
    - destruct (isProcedure li) eqn:Hproc; cbn [negb]; [assumption |].
      apply wellSequenced_push; [assumption |]. rewrite Hlast. cbn. now rewrite Hproc.
    - apply wellSequenced_push; [assumption |]. now rewrite Hlast. }
  destruct (holds (isProcedureFor (via_airway fix_)) (lastOf instructions)) eqn:Hproc.
  { apply wellSequenced_push; [assumption |]. cbn [follows].
    destruct (lastOf instructions) as [[] |]; cbn in *; congruence. }
  destruct (isDirectVia (via_airway fix_) || (List.length instructions =? 0)%nat)%bool
    eqn:Hdirect.
  { destruct (type fix_ =? "ltlg")%string; now apply wellSequenced_push. }
  apply orb_false_iff in Hdirect as [_ Hsome].
  destruct (lastOf_nonempty _ Hsome) as (li & Hlast).
  rewrite Hlast. cbn [holds].
  destruct (isAirwayFor (via_airway fix_) li) eqn:Hsame; cbn [negb]; [assumption |].
  assert (Hplain : wellSequenced
                     (push instructions
                        (AirwayOfpRouteChunk (via_airway fix_) (locationOf parseFloat fix_)))).
  { apply wellSequenced_push; [assumption |]. rewrite Hlast. cbn. now rewrite Hsame. }
  destruct lastFix as [lf |]; [| exact Hplain].
  destruct (isAirway li && negb (via_airway fix_ =? via_airway lf)%string)%bool eqn:Hclose;
    [| exact Hplain].
  apply andb_true_iff in Hclose as [Hairway _].
  apply wellSequenced_push.
  - apply wellSequenced_push; [assumption |]. rewrite Hlast. exact Hairway.
  - now rewrite lastOf_push.
Qed.

Lemma closeAirway_wellSequenced next fix_ instructions :
  wellSequenced instructions ->
  wellSequenced (closeAirway next fix_ instructions).
Proof.
  intros Hseq. unfold closeAirway.
  destruct (holds isAirway (lastOf instructions)) eqn:Hlast; cbn [andb]; [| assumption].
  destruct (viaDiffers next fix_); [| assumption].
  now apply wellSequenced_push.
Qed.

Lemma classifyFrom_wellSequenced (rest : list NavlogFix) :
  forall lastFix instructions,
    wellSequenced instructions ->
    wellSequenced (classifyFrom parseFloat lastFix rest instructions).
Proof.
  induction rest as [| fix_ tl IH]; intros lastFix instructions Hseq; [exact Hseq |].
  cbn [classifyFrom]. apply IH.
  destruct (skipped fix_); [assumption |].
  now apply closeAirway_wellSequenced, classifyFix_wellSequenced.
Qed.

Lemma classify_wellSequenced (navlog : list NavlogFix) :
  wellSequenced (generateRouteInstructionsFromNavlog parseFloat navlog).
Proof.
  rewrite classify_unfold. apply classifyFrom_wellSequenced, wellSequenced_nil.
Qed.

(** X2. The classifier never emits a 'dct' or a 'starEnrouteTransition'
    chunk, whatever the navlog. *)
Theorem classify_never_emits_reserved_chunks :
  forall (navlog : list NavlogFix) (c : OfpRouteChunk),
    In c (generateRouteInstructionsFromNavlog parseFloat navlog) ->
    c <> DctOfpRouteChunk
    /\ (forall ident_, c <> StarEnrouteTransitionOfpRouteChunk ident_).
Proof.
  intros navlog c Hin.
  apply in_split in Hin as (before & after & Heq).
  pose proof (@classify_wellSequenced navlog before c after Heq) as Hfollows.
  split; [| intros ident_]; intros ->; discriminate Hfollows.
Qed.

(** X3. The first chunk the classifier emits is a 'procedure', a 'waypoint'
    or a 'latlong' chunk: a route never starts on an airway, an airway
    termination or a SID enroute transition. *)
Theorem classify_first_chunk :
  forall (navlog : list NavlogFix) (c : OfpRouteChunk),
    hd_error (generateRouteInstructionsFromNavlog parseFloat navlog) = Some c ->
    (isProcedure c || isWaypoint c || isLatLong c)%bool = true.
Proof.
  intros navlog c Hhead.
  destruct (generateRouteInstructionsFromNavlog parseFloat navlog) as [| c' after] eqn:Hout;
    [discriminate |].
  injection Hhead as ->.
  pose proof (@classify_wellSequenced navlog [] c after Hout) as Hfollows.
  now destruct c.
Qed.

(** X4. In the classifier's output an 'airwayTermination' chunk comes right
    after an 'airway' chunk, and a 'sidEnrouteTransition' chunk right after
    a 'procedure' chunk. *)
Theorem classify_terminations_and_transitions_follow :
  forall (navlog : list NavlogFix) (before after : list OfpRouteChunk) (c : OfpRouteChunk),
    generateRouteInstructionsFromNavlog parseFloat navlog = before ++ c :: after ->
    (isAirwayTermination c = true -> holds isAirway (lastOf before) = true)
    /\ (isSidEnrouteTransition c = true -> holds isProcedure (lastOf before) = true).
Proof.
  intros navlog before after c Heq.
  pose proof (@classify_wellSequenced navlog before c after Heq) as Hfollows.
  split; intros Hc; destruct c; try discriminate Hc; exact Hfollows.
Qed.

(** X5. The classifier never emits two 'procedure' chunks in a row, nor two
    'airway' chunks with the same identifier in a row. *)
Theorem classify_no_repeated_procedure_or_airway :
  forall (navlog : list NavlogFix) (before after : list OfpRouteChunk)
         (previous c : OfpRouteChunk),
    generateRouteInstructionsFromNavlog parseFloat navlog
    = before ++ previous :: c :: after ->
    (isProcedure previous && isProcedure c)%bool = false
    /\ (forall ident_ hint hint',
          ~ (previous = AirwayOfpRouteChunk ident_ hint
             /\ c = AirwayOfpRouteChunk ident_ hint')).
Proof.
  intros navlog before after previous c Heq.
  assert (Hfollows : follows (Some previous) c = true).
  { rewrite <- (lastOf_push before previous).
    apply (@classify_wellSequenced navlog (push before previous) c after).
    unfold push. now rewrite <- app_assoc. }
  split.
  - destruct c; cbn in *; try apply andb_false_r.
    apply negb_true_iff in Hfollows. now rewrite Hfollows.
  - intros ident_ hint hint' [-> ->]. cbn in Hfollows.
    now rewrite String.eqb_refl in Hfollows.
Qed.

(* ------------------------------------------------------------------ *)
(** *** The size of the output *)

Lemma owed_push_airway instructions ident_ hint :
  owed (push instructions (AirwayOfpRouteChunk ident_ hint)) = 1%nat.
Proof. unfold owed. now rewrite lastOf_push. Qed.

Lemma length_push {A : Type} (l : list A) (x : A) :
  List.length (push l x) = S (List.length l).
Proof. unfold push. rewrite length_app. cbn. lia. Qed.

(** One iteration adds at most two to the chunks emitted and owed. *)
Lemma iteration_size lastFix next fix_ instructions :
  let out := closeAirway next fix_ (classifyFix parseFloat lastFix fix_ instructions) in
  (List.length out + owed out <= List.length instructions + owed instructions + 2)%nat.
Proof.
  cbv zeta.
  assert (Hclose : forall l,
             (List.length (closeAirway next fix_ l) + owed (closeAirway next fix_ l)
              <= List.length l + owed l)%nat).
  { intros l. unfold closeAirway, owed at 2.
    destruct (holds isAirway (lastOf l)) eqn:Hlast; cbn [andb].
    - destruct (viaDiffers next fix_).
      + unfold owed. rewrite lastOf_push, length_push. cbn. lia.
      + unfold owed. rewrite Hlast. lia.
    - unfold owed. rewrite Hlast. lia. }
  assert (Hpush : forall l c,
             (List.length (push l c) + owed (push l c) <= List.length l + 2)%nat).
  { intros l c. unfold owed. rewrite lastOf_push, length_push. cbn.
    destruct (isAirway c); lia. }
  etransitivity; [apply Hclose |].
  unfold classifyFix.
  repeat match goal with
         | |- context [if ?b then _ else _] =>
             lazymatch b with
             | context [if _ then _ else _] => fail
             | _ => destruct b eqn:?
             end
         | |- context [match ?o with Some _ => _ | None => _ end] =>
             lazymatch o with
             | context [match _ with _ => _ end] => fail
             | _ => destruct o eqn:?
             end
         end;
    try (etransitivity; [apply Hpush |]; lia);
    try lia.
  (* the airway branch after closing the previous airway *)
  rewrite length_push, owed_push_airway, length_push.
  match goal with
  | H : (holds isAirway ?o && _)%bool = true |- _ =>
      apply andb_true_iff in H as [Hopen _]
  end.
  unfold owed. rewrite Hopen. lia.
Qed.

Lemma classifyFrom_size (rest : list NavlogFix) :
  forall lastFix instructions,
    let out := classifyFrom parseFloat lastFix rest instructions in
    (List.length out + owed out
     <= List.length instructions + owed instructions
        + 2 * List.length (filter (fun f => negb (skipped f)) rest))%nat.
Proof.
  induction rest as [| fix_ tl IH]; intros lastFix instructions; cbv zeta.
  - cbn. lia.
  - cbn [classifyFrom filter].
    destruct (skipped fix_); cbn [negb List.length].
    + apply IH.
    + etransitivity; [apply IH |].
      pose proof (iteration_size lastFix (hd_error tl) fix_ instructions) as Hstep.
      cbv zeta in Hstep. lia.
Qed.

(** X6. The output of the classifier holds at most twice as many chunks as
    the navlog has entries that are not skipped; so a navlog of airports
    and TOC/TOD markers only, like the empty navlog, gives no chunk. *)
Theorem classify_output_size :
  forall navlog : list NavlogFix,
    (List.length (generateRouteInstructionsFromNavlog parseFloat navlog)
     <= 2 * List.length (filter (fun f => negb (skipped f)) navlog))%nat.
Proof.
  intros navlog. rewrite classify_unfold.
  pose proof (classifyFrom_size navlog None []) as Hsize.
  cbv zeta in Hsize. cbn in Hsize. lia.
Qed.

End ClassifierProperties.

(* ================================================================== *)
(** ** The order [<] on numbers *)

Lemma Qltb_lt (x y : Q) : Qltb x y = true <-> (x < y)%Q.
Proof.
  unfold Qltb. rewrite negb_true_iff, <- not_true_iff_false, Qle_bool_iff.
  split; [apply Qnot_le_lt | apply Qlt_not_le].
Qed.

Lemma number_lt_irrefl (a : number) : number_lt a a = false.
Proof.
  destruct a as [| | q |]; cbn; try reflexivity.
  apply not_true_iff_false. rewrite Qltb_lt. apply Qlt_irrefl.
Qed.

Lemma number_lt_trans (a b c : number) :
  number_lt a b = true -> number_lt b c = true -> number_lt a c = true.
Proof.
  destruct a as [| | x |], b as [| | y |], c as [| | z |]; cbn;
    try discriminate; try reflexivity.
  rewrite !Qltb_lt. apply Qlt_trans.
Qed.

(** A number that is not [NaN] falls on one side of any strict gap. *)
Lemma number_lt_between (a b c : number) :
  number_lt a c = true -> b <> NaN ->
  number_lt a b = true \/ number_lt b c = true.
Proof.
  destruct a as [| | x |], b as [| | y |], c as [| | z |]; cbn;
    try discriminate; try congruence; auto.
  rewrite !Qltb_lt. intros Hxz _.
  destruct (Qlt_le_dec x y) as [Hxy | Hyx]; [now left | right].
  eapply Qle_lt_trans; eassumption.
Qed.

(* ================================================================== *)
(** ** Properties of the route synthesizer *)

Section SynthesizerProperties.

Context {FlightPlan PendingAirways : Type}.
Context {service : FlightPlanService FlightPlan PendingAirways}.
Context {database : NavigationDatabase}.
Variable distanceTo : Coordinates -> Coordinates -> number.
Variable createLatLonWaypoint : Coordinates -> Fix.
Variable doUplinkProcedures : bool.
Variable route : OfpRoute.

Local Abbreviation State := (@UplinkState FlightPlan PendingAirways).
Local Abbreviation process :=
  (processChunk distanceTo createLatLonWaypoint doUplinkProcedures route).
Local Abbreviation loop :=
  (uplinkLoop distanceTo createLatLonWaypoint doUplinkProcedures route).
Local Abbreviation reached :=
  (reaches distanceTo createLatLonWaypoint doUplinkProcedures route).
Local Abbreviation nearest := (nearestOf distanceTo).

Ltac unfold_uplink :=
  cbv beta iota zeta delta
    [bind ret throw get modify defined Uplink M
     setInsertHead setUplink setPendingAirways setInsertHeadToEndOfEnroute
     ensureAirwaysFinalized establishInsertHead insertFixByIdent pickAirway] in *.

Lemma endOfEnroute_lower (plan : FlightPlan) : -1 <= endOfEnroute plan.
Proof.
  unfold endOfEnroute, legsUpToEnroute.
  destruct (Nat.ltb_spec 1 (legCount enrouteSegment plan)) as [Hmany | Hfew]; [| lia].
  destruct (holds isDiscontinuity _); lia.
Qed.

Lemma endOfEnroute_index (plan : FlightPlan) :
  1 <= legsUpToEnroute plan -> 0 <= endOfEnroute plan.
Proof.
  unfold endOfEnroute, legsUpToEnroute.
  destruct (Nat.ltb_spec 1 (legCount enrouteSegment plan)) as [Hmany | Hfew]; [| lia].
  destruct (holds isDiscontinuity _); lia.
Qed.

Lemma cursorSettled_endOfEnroute plan pending :
  cursorSettled {| uplink := plan; pendingAirways := pending;
                   insertHead := endOfEnroute plan |}.
Proof. split; cbn; [apply endOfEnroute_lower | auto]. Qed.

(** Under the invariant the test [insertHead === -1] changes nothing. *)
Lemma establishInsertHead_settled (s : State) :
  cursorSettled s -> establishInsertHead s = (Normal tt, s).
Proof.
  intros [_ Hsentinel]. unfold_uplink.
  destruct (Z.eqb_spec (insertHead s) (-1)) as [Hat | Hnot]; [| reflexivity].
  rewrite (Hsentinel Hat), <- Hat. now destruct s.
Qed.

(** Case analysis on an equation [m s = (r, s')]: the innermost scrutinee
    first, so that each branch of the handler becomes one goal. *)
Ltac split_run H :=
  repeat (cbv beta iota zeta in H;
          match type of H with
          | context [match ?x with _ => _ end] =>
              lazymatch x with
              | context [match _ with _ => _ end] => fail
              | _ => destruct x eqn:?
              end
          end);
  cbv beta iota zeta in H.

Ltac settle H :=
  inversion H; subst; unfold cursorMove; cbn; tauto.

Lemma insertFixByIdent_move ident locationHint notFound (s s' : State) r :
  insertFixByIdent distanceTo ident locationHint notFound s = (r, s') ->
  cursorMove s s'.
Proof. unfold_uplink. intros Hrun. split_run Hrun; settle Hrun. Qed.

Lemma process_move (i : nat) (chunk : OfpRouteChunk) (s s' : State) r :
  process i chunk s = (r, s') -> cursorSettled s -> cursorMove s s'.
Proof.
  intros Hrun Hs.
  destruct chunk; cbn [processChunk] in Hrun.
  - (* airway *)
    unfold airwayChunk in Hrun. unfold_uplink. split_run Hrun; settle Hrun.
  - (* airwayTermination *)
    unfold airwayTerminationChunk in Hrun. unfold_uplink. split_run Hrun; settle Hrun.
  - (* waypoint *)
    unfold waypointChunk in Hrun.
    unfold bind in Hrun at 1. rewrite establishInsertHead_settled in Hrun by assumption.
    eauto using insertFixByIdent_move.
  - (* latlong *)
    unfold latlongChunk in Hrun.
    unfold bind in Hrun at 1. rewrite establishInsertHead_settled in Hrun by assumption.
    unfold_uplink. settle Hrun.
  - (* dct *)
    settle Hrun.
  - (* procedure *)
    unfold procedureChunk in Hrun. unfold_uplink. split_run Hrun; settle Hrun.
  - (* sidEnrouteTransition *)
    unfold sidEnrouteTransitionChunk in Hrun.
    destruct (negb doUplinkProcedures); [eauto using insertFixByIdent_move |].
    unfold_uplink. split_run Hrun; settle Hrun.
  - (* starEnrouteTransition *)
    settle Hrun.
Qed.

(** Every chunk keeps the invariant, whether it completes or throws. *)
Lemma process_settled (i : nat) (chunk : OfpRouteChunk) (s s' : State) r :
  process i chunk s = (r, s') -> cursorSettled s -> cursorSettled s'.
Proof.
  intros Hrun Hs.
  pose proof (process_move _ _ Hrun Hs) as Hmove.
  pose proof (endOfEnroute_lower (uplink s')) as Hlow.
  destruct Hs as [Hs Hsentinel].
  unfold cursorSettled.
  destruct Hmove as [[Hplan Hhead] | [Hhead | Hhead]]; rewrite Hhead.
  - rewrite Hplan. auto.
  - split; lia.
  - auto.
Qed.

Lemma loop_settled (rest : list OfpRouteChunk) :
  forall (i : nat) (s s' : State) r,
    loop i rest s = (r, s') -> cursorSettled s -> cursorSettled s'.
Proof.
  induction rest as [| chunk tl IH]; intros i s s' r Hrun Hs.
  - inversion Hrun; now subst.
  - cbn [uplinkLoop] in Hrun. unfold bind in Hrun.
    destruct (process i chunk s) as [[[] | e] s1] eqn:Hchunk.
    + eapply IH; [exact Hrun |]. eapply process_settled; eassumption.
    + inversion Hrun; subst. eapply process_settled; eassumption.
Qed.

Lemma reaches_settled plan pending done (s : State) :
  reached plan pending done s -> cursorSettled s.
Proof.
  intros Hrun. eapply loop_settled; [exact Hrun |].
  apply cursorSettled_endOfEnroute.
Qed.

(** The loop over [done ++ rest] is the loop over [done], then, unless that
    threw, the loop over [rest] at the index that follows. *)
Lemma loop_app (done rest : list OfpRouteChunk) :
  forall (i : nat) (s : State),
    loop i (done ++ rest) s
    = match loop i done s with
      | (Normal _, s') => loop (i + List.length done)%nat rest s'
      | (Thrown e, s') => (Thrown e, s')
      end.
Proof.
  induction done as [| chunk tl IH]; intros i s.
  - cbn. now rewrite Nat.add_0_r.
  - cbn [app uplinkLoop List.length]. unfold bind.
    destruct (process i chunk s) as [[[] | e] s1]; [| reflexivity].
    rewrite IH. now rewrite Nat.add_succ_r.
Qed.

(** The cursor is computed once, before the loop. *)
Lemma uplinkFlightPlanFromSimbrief_loop (s : State) :
  uplinkFlightPlanFromSimbrief distanceTo createLatLonWaypoint doUplinkProcedures route s
  = loop 0%nat (chunks route) (initialState (uplink s) (pendingAirways s)).
Proof. reflexivity. Qed.

(** A chunk that throws in the state the loop reaches ends the whole run
    there, with that exception and in the state the chunk left. *)
Lemma run_throws_at plan pending done chunk rest (s s' : State) e :
  chunks route = done ++ chunk :: rest ->
  reached plan pending done s ->
  process (List.length done) chunk s = (Thrown e, s') ->
  forall s0 : State,
    uplink s0 = plan -> pendingAirways s0 = pending ->
    uplinkFlightPlanFromSimbrief distanceTo createLatLonWaypoint doUplinkProcedures route s0
    = (Thrown e, s').
Proof.
  intros Hchunks Hdone Hchunk s0 <- <-.
  rewrite uplinkFlightPlanFromSimbrief_loop, Hchunks, loop_app.
  unfold reaches in Hdone. rewrite Hdone.
  cbn [uplinkLoop Nat.add]. unfold bind. now rewrite Hchunk.
Qed.

(** An invariant of the chunks holds in every state the loop passes. *)
Lemma statesAtChunks_invariant (P : State -> Prop) :
  (forall i chunk s s', process i chunk s = (Normal tt, s') -> P s -> P s') ->
  forall rest i s,
    P s ->
    Forall P (statesAtChunks distanceTo createLatLonWaypoint doUplinkProcedures
                route i rest s).
Proof.
  intros Hstep rest.
  induction rest as [| chunk tl IH]; intros i s Hs; cbn [statesAtChunks].
  - constructor.
  - constructor; [assumption |].
    destruct (process i chunk s) as [[[] | e] s1] eqn:Hchunk; [| constructor].
    apply IH. eapply Hstep; eassumption.
Qed.

(* ------------------------------------------------------------------ *)
(** *** Nearest candidate *)

Local Abbreviation distanceOf locationHint :=
  (fun f : Fix => distanceTo (location f) locationHint).

Lemma number_nan_dec (a : number) : {a = NaN} + {a <> NaN}.
Proof. destruct a; [now left | right | right | right]; discriminate. Qed.

Lemma number_lt_asym (a b : number) : number_lt a b = true -> number_lt b a = false.
Proof.
  intros Hab. destruct (number_lt b a) eqn:Hba; [| reflexivity].
  rewrite <- (number_lt_irrefl a). symmetry. eapply number_lt_trans; eassumption.
Qed.

(** The loop of [pickFix] from any bound: either nothing below the bound and
    the index it was given, or the first nearest candidate below it. *)
Lemma pickFixLoop_selects locationHint (rest : list Fix) :
  forall (i : Z) (minDistance : number) (minDistanceIndex : Z),
    (pickFixLoop distanceTo rest locationHint i minDistance minDistanceIndex
     = minDistanceIndex
     /\ forall g, In g rest -> number_lt (distanceOf locationHint g) minDistance = false)
    \/ exists (j : nat) (best : Fix),
         pickFixLoop distanceTo rest locationHint i minDistance minDistanceIndex
         = i + Z.of_nat j
         /\ nth_error rest j = Some best
         /\ number_lt (distanceOf locationHint best) minDistance = true
         /\ (forall g, In g rest ->
               number_lt (distanceOf locationHint g) (distanceOf locationHint best) = false)
         /\ (forall j' g, (j' < j)%nat -> nth_error rest j' = Some g ->
               distanceOf locationHint g = NaN
               \/ number_lt (distanceOf locationHint best) (distanceOf locationHint g) = true).
Proof.
  induction rest as [| x tl IH]; intros i minDistance minDistanceIndex.
  - left. split; [reflexivity | intros g []].
  - cbn [pickFixLoop].
    destruct (number_lt (distanceOf locationHint x) minDistance) eqn:Hx.
    + right.
      destruct (IH (i + 1) (distanceOf locationHint x) i)
        as [[Hloop Hnone] | (j & best & Hloop & Hat & Hbelow & Hmin & Hfirst)].
      * exists 0%nat, x. rewrite Hloop. repeat split.
        -- lia.
        -- assumption.
        -- intros g [<- | Hin]; [apply number_lt_irrefl | now apply Hnone].
        -- intros j' g Hj. lia.
      * exists (S j), best. rewrite Hloop. repeat split.
        -- lia.
        -- assumption.
        -- eapply number_lt_trans; eassumption.
        -- intros g [<- | Hin]; [now apply number_lt_asym | now apply Hmin].
        -- intros [| j'] g Hj Hg; cbn in Hg.
           ++ injection Hg as <-. now right.
           ++ apply (Hfirst j' g); [lia | assumption].
    + destruct (IH (i + 1) minDistance minDistanceIndex)
        as [[Hloop Hnone] | (j & best & Hloop & Hat & Hbelow & Hmin & Hfirst)].
      * left. split; [assumption |].
        intros g [<- | Hin]; [assumption | now apply Hnone].
      * right. exists (S j), best. rewrite Hloop. repeat split.
        -- lia.
        -- assumption.
        -- assumption.
        -- intros g [<- | Hin]; [| now apply Hmin].
           destruct (number_lt (distanceOf locationHint x) (distanceOf locationHint best))
             eqn:Hg; [| reflexivity].
           rewrite <- Hx. symmetry. eapply number_lt_trans; eassumption.
        -- intros [| j'] g Hj Hg; cbn in Hg.
           ++ injection Hg as <-.
              destruct (number_nan_dec (distanceOf locationHint x)) as [Hnan | Hnum];
                [now left | right].
              destruct (@number_lt_between _ _ _ Hbelow Hnum) as [Hlt | Hlt];
                [exact Hlt | rewrite Hx in Hlt; discriminate].
           ++ apply (Hfirst j' g); [lia | assumption].
Qed.

(** When every distance is [NaN], no comparison succeeds and the loop hands
    back the index it was given. *)
Lemma pickFixLoop_nan locationHint (rest : list Fix) :
  forall i minDistance minDistanceIndex,
    (forall g, In g rest -> distanceOf locationHint g = NaN) ->
    pickFixLoop distanceTo rest locationHint i minDistance minDistanceIndex
    = minDistanceIndex.
Proof.
  induction rest as [| fix_ tl IH]; intros i minDistance minDistanceIndex Hnan;
    [reflexivity |].
  cbn [pickFixLoop]. rewrite (Hnan fix_) by now left. cbn [number_lt].
  apply IH. intros g Hin. apply Hnan. now right.
Qed.

(** The 'waypoint' case in a state of the run: the test on [insertHead]
    falls away. *)
Lemma waypointChunk_settled ident locationHint (s : State) :
  cursorSettled s ->
  waypointChunk distanceTo ident locationHint s
  = insertFixByIdent distanceTo ident locationHint (NoFixesForWaypoint ident) s.
Proof.
  intros Hs. unfold waypointChunk. unfold bind at 1.
  now rewrite establishInsertHead_settled.
Qed.

Lemma insertFixByIdent_several ident locationHint notFound (s : State) :
  (1 < List.length (searchAllFix ident))%nat ->
  insertFixByIdent distanceTo ident locationHint notFound s
  = (Normal tt, inserted (pickFix distanceTo (searchAllFix ident) locationHint) s).
Proof.
  intros Hmany. unfold_uplink.
  destruct (Nat.ltb_spec 0 (List.length (searchAllFix ident))) as [_ | Hnone]; [| lia].
  destruct (Nat.ltb_spec 1 (List.length (searchAllFix ident))) as [_ | Hone]; [| lia].
  reflexivity.
Qed.

(** C5, as amended. With procedure uplinking enabled, a 'procedure' chunk
    that is neither the first nor the last chunk and that the loop reaches
    (every chunk before it was applied without a throw) fails the run with
    InvalidSequence; the run ends in the state the earlier chunks left, so
    the chunk itself and every chunk after it change nothing.  With
    procedure uplinking disabled the chunk is skipped instead.  Three chunks
    with a 'procedure' chunk second are the case [done = [c1]],
    [rest = [c3]]. *)
Theorem procedure_chunk_between_the_ends :
  forall (plan : FlightPlan) (pending : option PendingAirways)
         (done : list OfpRouteChunk) (ident : string) (rest : list OfpRouteChunk)
         (s : State),
    chunks route = done ++ ProcedureOfpRouteChunk ident :: rest ->
    done <> [] -> rest <> [] ->
    reached plan pending done s ->
    errorKind ProcedureNotAtStartOrEnd = InvalidSequence
    /\ process (List.length done) (ProcedureOfpRouteChunk ident) s
       = (if doUplinkProcedures then Thrown ProcedureNotAtStartOrEnd else Normal tt, s)
    /\ (doUplinkProcedures = true ->
        forall s0 : State,
          uplink s0 = plan -> pendingAirways s0 = pending ->
          uplinkFlightPlanFromSimbrief distanceTo createLatLonWaypoint
            doUplinkProcedures route s0
          = (Thrown ProcedureNotAtStartOrEnd, s)).
Proof.
  intros plan pending done ident rest s Hchunks Hdone Hrest Hreach.
  assert (Hchunk : process (List.length done) (ProcedureOfpRouteChunk ident) s
                   = (if doUplinkProcedures then Thrown ProcedureNotAtStartOrEnd
                      else Normal tt, s)).
  { cbn [processChunk]. unfold procedureChunk.
    destruct doUplinkProcedures; [| reflexivity]. cbn [negb].
    rewrite Hchunks, length_app. cbn [List.length].
    destruct done as [| c0 done']; [congruence |].
    destruct rest as [| c1 rest']; [congruence |].
    cbn [List.length].
    destruct (Z.eqb_spec (Z.of_nat (S (List.length done'))) 0) as [H0 | _]; [lia |].
    destruct (Z.eqb_spec (Z.of_nat (S (List.length done')))
                (Z.of_nat (S (List.length done') + S (S (List.length rest'))) - 1))
      as [Hlast | _]; [lia |].
    reflexivity. }
  split; [reflexivity | split; [exact Hchunk |]].
  intros Henabled s0 Hplan Hpending.
  assert (Hthrow : process (List.length done) (ProcedureOfpRouteChunk ident) s
                   = (Thrown ProcedureNotAtStartOrEnd, s))
    by (rewrite Hchunk; now rewrite Henabled).
  exact (@run_throws_at plan pending done _ rest s s _ Hchunks Hreach Hthrow
           s0 Hplan Hpending).
Qed.

(** C6. A 'waypoint' chunk whose identifier lookup returns no fix fails the
    run with NotFound and inserts no leg: the chunk throws in the state the
    loop reached, and the run ends in exactly that state, with the plan, the
    pending airways and [insertHead] as the earlier chunks left them. *)
Theorem waypoint_without_fix_fails :
  forall (plan : FlightPlan) (pending : option PendingAirways)
         (done : list OfpRouteChunk) (ident : string) (locationHint : Coordinates)
         (rest : list OfpRouteChunk) (s : State),
    chunks route = done ++ WaypointOfpRouteChunk ident locationHint :: rest ->
    reached plan pending done s ->
    searchAllFix ident = [] ->
    errorKind (NoFixesForWaypoint ident) = NotFound
    /\ process (List.length done) (WaypointOfpRouteChunk ident locationHint) s
       = (Thrown (NoFixesForWaypoint ident), s)
    /\ (forall s0 : State,
          uplink s0 = plan -> pendingAirways s0 = pending ->
          uplinkFlightPlanFromSimbrief distanceTo createLatLonWaypoint
            doUplinkProcedures route s0
          = (Thrown (NoFixesForWaypoint ident), s)).
Proof.
  intros plan pending done ident locationHint rest s Hchunks Hreach Hnone.
  assert (Hchunk : process (List.length done) (WaypointOfpRouteChunk ident locationHint) s
                   = (Thrown (NoFixesForWaypoint ident), s)).
  { cbn [processChunk].
    rewrite waypointChunk_settled by (eapply reaches_settled; eassumption).
    unfold insertFixByIdent. now rewrite Hnone. }
  split; [reflexivity | split; [exact Hchunk |]].
  intros s0 Hplan Hpending.
  exact (@run_throws_at plan pending done _ rest s s _ Hchunks Hreach Hchunk
           s0 Hplan Hpending).
Qed.

(** C7, as amended. When the lookup of a 'waypoint' chunk returns more than
    one candidate and at least one of them is at a distance from the hint
    that is a number below [MAX_SAFE_INTEGER], the chunk inserts at
    [insertHead] a candidate at such a distance to which no candidate is
    nearer and that is strictly nearer than every candidate before it in
    lookup order whose distance is a number, and advances [insertHead] by
    one; of two candidates at distances 5 and 50, in either order, that is
    the one at distance 5. *)
Theorem waypoint_inserts_nearest_candidate :
  forall (plan : FlightPlan) (pending : option PendingAirways)
         (done : list OfpRouteChunk) (ident : string) (locationHint : Coordinates)
         (s : State),
    reached plan pending done s ->
    (1 < List.length (searchAllFix ident))%nat ->
    (exists g, In g (searchAllFix ident)
               /\ number_lt (distanceTo (location g) locationHint) MAX_SAFE_INTEGER = true) ->
    exists (k : nat) (best : Fix),
      nearest locationHint (searchAllFix ident) k best
      /\ number_lt (distanceTo (location best) locationHint) MAX_SAFE_INTEGER = true
      /\ process (List.length done) (WaypointOfpRouteChunk ident locationHint) s
         = (Normal tt, inserted (Some best) s)
      /\ (forall near far,
            (searchAllFix ident = [near; far] \/ searchAllFix ident = [far; near]) ->
            distanceTo (location near) locationHint = Finite (5 # 1) ->
            distanceTo (location far) locationHint = Finite (50 # 1) ->
            best = near).
Proof.
  intros plan pending done ident locationHint s Hreach Hmany (g0 & Hg0 & Hbelow0).
  destruct (@pickFixLoop_selects locationHint (searchAllFix ident) 0 MAX_SAFE_INTEGER (-1))
    as [[_ Hnone] | (k & best & Hloop & Hat & Hbelow & Hmin & Hfirst)].
  - rewrite (Hnone g0 Hg0) in Hbelow0. discriminate Hbelow0.
  - assert (Hpick : pickFix distanceTo (searchAllFix ident) locationHint = Some best).
    { unfold pickFix. rewrite Hloop.
      change (0 + Z.of_nat k) with (Z.of_nat k). now rewrite at_index_nat. }
    exists k, best. split; [| split; [exact Hbelow | split]].
    + split; [exact Hat | split; [exact Hmin | exact Hfirst]].
    + cbn [processChunk].
      rewrite waypointChunk_settled by (eapply reaches_settled; eassumption).
      rewrite insertFixByIdent_several by assumption. now rewrite Hpick.
    + intros near far Horder Hnear Hfar.
      assert (Hin : In best (searchAllFix ident)) by (eapply nth_error_In; eassumption).
      assert (Hnearin : In near (searchAllFix ident))
        by (destruct Horder as [-> | ->]; cbn; auto).
      assert (Hcases : best = near \/ best = far)
        by (destruct Horder as [Ho | Ho]; rewrite Ho in Hin; cbn in Hin;
            intuition congruence).
      destruct Hcases as [-> | ->]; [reflexivity |].
      specialize (Hmin near Hnearin). rewrite Hnear, Hfar in Hmin.
      discriminate Hmin.
Qed.

(** C8, as amended. The run computes [insertHead] once before the first
    chunk.  In every state in which the loop enters a chunk [insertHead] is
    at least -1 and the step [if (insertHead === -1) ...] of the 'waypoint'
    and 'latlong' cases leaves the state as it is.  If moreover the five
    segments up to the enroute segment always hold at least one leg between
    them (the origin leg of the city pair), [insertHead] is a non-negative
    index in each of those states and the test [insertHead === -1] is false
    there. *)
Theorem cursor_is_an_index_at_every_chunk :
  forall s0 : State,
    let visited :=
      statesAtChunks distanceTo createLatLonWaypoint doUplinkProcedures route
        0%nat (chunks route) (initialState (uplink s0) (pendingAirways s0)) in
    uplinkFlightPlanFromSimbrief distanceTo createLatLonWaypoint doUplinkProcedures route s0
    = loop 0%nat (chunks route) (initialState (uplink s0) (pendingAirways s0))
    /\ Forall (fun s => -1 <= insertHead s /\ establishInsertHead s = (Normal tt, s))
         visited
    /\ ((forall plan : FlightPlan, 1 <= legsUpToEnroute plan) ->
        Forall (fun s => 0 <= insertHead s /\ (insertHead s =? -1) = false) visited).
Proof.
  intros s0 visited. split; [reflexivity | split].
  - eapply Forall_impl with (P := cursorSettled).
    + intros s Hs. split; [apply Hs | now apply establishInsertHead_settled].
    + apply statesAtChunks_invariant.
      * intros i chunk s s' Hrun Hs. eapply process_settled; eassumption.
      * apply cursorSettled_endOfEnroute.
  - intros Horigin.
    eapply Forall_impl
      with (P := fun s => cursorSettled s /\ 0 <= insertHead s).
    + intros s [_ Hindex]. split; [assumption |].
      apply Z.eqb_neq. lia.
    + apply statesAtChunks_invariant.
      * intros i chunk s s' Hrun [Hs Hindex].
        split; [eapply process_settled; eassumption |].
        destruct (process_move _ _ Hrun Hs) as [[_ Hhead] | [Hhead | Hhead]];
          rewrite Hhead; try lia.
        apply endOfEnroute_index, Horigin.
      * split; [apply cursorSettled_endOfEnroute |].
        cbn. apply endOfEnroute_index, Horigin.
Qed.

(** C9. In the 'airwayTermination' case, when the lookup returns fixes but
    none of them has both the identifier and the region code of a fix of the
    last airway of the pending entry, the chunk does not throw: [thenTo] is
    called with no fix, the pending airways are finalized into the plan and
    cleared, and [insertHead] is recomputed. *)
Theorem airway_termination_without_match_finalizes :
  forall (i : nat) (ident : string) (s : State) (pending : PendingAirways)
         (tailElement : PendingAirwayElement) (tailAirway : Airway),
    pendingAirways s = Some pending ->
    lastOf (elements pending) = Some tailElement ->
    airway tailElement = Some tailAirway ->
    searchAllFix ident <> [] ->
    (forall it fix_, In it (searchAllFix ident) -> In fix_ (fixes tailAirway) ->
       ~ (fix_ident fix_ = fix_ident it /\ icaoCode fix_ = icaoCode it)) ->
    pickAirwayFix tailAirway (searchAllFix ident) = None
    /\ process i (AirwayTerminationOfpRouteChunk ident) s
       = (Normal tt,
          {| uplink := finalize (thenTo None pending) (uplink s);
             pendingAirways := None;
             insertHead := endOfEnroute (finalize (thenTo None pending) (uplink s)) |}).
Proof.
  intros i ident s pending tailElement tailAirway Hpending Htail Hairway Hsome Hnomatch.
  assert (Hpick : pickAirwayFix tailAirway (searchAllFix ident) = None).
  { unfold pickAirwayFix, find_first.
    destruct (find _ (searchAllFix ident)) as [it |] eqn:Hfind; [| reflexivity].
    apply find_some in Hfind as [Hin Hon].
    apply existsb_exists in Hon as (fix_ & Hfix & Hsame).
    unfold sameFix in Hsame. apply andb_true_iff in Hsame as [Hident Hicao].
    apply String.eqb_eq in Hident. apply String.eqb_eq in Hicao.
    exfalso. eapply Hnomatch; eauto. }
  split; [exact Hpick |].
  cbn [processChunk]. unfold airwayTerminationChunk. unfold_uplink.
  rewrite Hpending. cbv beta iota. rewrite Hpending. cbv beta iota.
  rewrite Htail. cbv beta iota. rewrite Hairway, Hpick.
  destruct (searchAllFix ident) as [| first tl]; [congruence |].
  reflexivity.
Qed.

Variable parseFloat : string -> number.

(** C10. A navlog fix whose coordinate text does not parse gives a
    'waypoint' chunk whose location hint is [NaN] on both coordinates.  If
    the lookup of that chunk returns more than one fix and the distance from
    each to that hint is [NaN], no comparison of [pickFix] succeeds, the
    selected index stays -1 and [pickFix] returns no fix; the chunk then
    calls [nextWaypoint] with no fix and advances [insertHead] instead of
    throwing. *)
Theorem waypoint_with_nan_hint_inserts_no_fix :
  forall (entry : NavlogFix) (plan : FlightPlan) (pending : option PendingAirways)
         (done : list OfpRouteChunk) (s : State),
    let locationHint := {| lat := NaN; long := NaN |} in
    let candidates := searchAllFix (ident entry) in
    skipped entry = false ->
    is_sid_star entry <> "1" ->
    type entry <> "ltlg" ->
    parseFloat (pos_lat entry) = NaN ->
    parseFloat (pos_long entry) = NaN ->
    reached plan pending done s ->
    (1 < List.length candidates)%nat ->
    (forall g, In g candidates -> distanceTo (location g) locationHint = NaN) ->
    generateRouteInstructionsFromNavlog parseFloat [entry]
    = [WaypointOfpRouteChunk (ident entry) locationHint]
    /\ pickFixLoop distanceTo candidates locationHint 0 MAX_SAFE_INTEGER (-1) = -1
    /\ pickFix distanceTo candidates locationHint = None
    /\ process (List.length done) (WaypointOfpRouteChunk (ident entry) locationHint) s
       = (Normal tt, inserted None s).
Proof.
  intros entry plan pending done s locationHint candidates
         Hskip Hsid Hltlg Hlat Hlong Hreach Hmany Hnan.
  assert (Hloop : pickFixLoop distanceTo candidates locationHint 0 MAX_SAFE_INTEGER (-1)
                  = -1) by now apply pickFixLoop_nan.
  assert (Hpick : pickFix distanceTo candidates locationHint = None)
    by (unfold pickFix; now rewrite Hloop).
  repeat split; try assumption.
  - rewrite classify_unfold, classifyFrom_single.
    + unfold waypointsOf, locationOf. cbn [filter]. rewrite Hskip. cbn [negb map].
      now rewrite Hlat, Hlong.
    + constructor; [now split | constructor].
    + cbn [filter]. rewrite Hskip. cbn. lia.
  - cbn [processChunk].
    rewrite waypointChunk_settled by (eapply reaches_settled; eassumption).
    rewrite insertFixByIdent_several by assumption.
    fold candidates. now rewrite Hpick.
Qed.

(* ------------------------------------------------------------------ *)
(** *** What [pickFix] and [pickAirway] select *)

(** X7. What [pickFix] returns on any candidates, [NaN] distances included:
    no fix exactly when no candidate is at a distance below
    [MAX_SAFE_INTEGER]; otherwise a candidate below it to which none is
    nearer, and which is strictly nearer than every candidate before it
    whose distance is a number. *)
Theorem pickFix_selection :
  forall (candidates : list Fix) (locationHint : Coordinates),
    (pickFix distanceTo candidates locationHint = None
     /\ forall g, In g candidates ->
          number_lt (distanceTo (location g) locationHint) MAX_SAFE_INTEGER = false)
    \/ exists (j : nat) (best : Fix),
         pickFix distanceTo candidates locationHint = Some best
         /\ nth_error candidates j = Some best
         /\ number_lt (distanceTo (location best) locationHint) MAX_SAFE_INTEGER = true
         /\ (forall g, In g candidates ->
               number_lt (distanceTo (location g) locationHint)
                         (distanceTo (location best) locationHint) = false)
         /\ (forall j' g, (j' < j)%nat -> nth_error candidates j' = Some g ->
               distanceTo (location g) locationHint = NaN
               \/ number_lt (distanceTo (location best) locationHint)
                            (distanceTo (location g) locationHint) = true).
Proof.
  intros candidates locationHint. unfold pickFix.
  destruct (@pickFixLoop_selects locationHint candidates 0 MAX_SAFE_INTEGER (-1))
    as [[Hloop Hnone] | (j & best & Hloop & Hat & Hrest)].
  - left. rewrite Hloop. split; [reflexivity | exact Hnone].
  - right. exists j, best. rewrite Hloop.
    change (0 + Z.of_nat j) with (Z.of_nat j). rewrite at_index_nat.
    split; [exact Hat | split; [exact Hat | exact Hrest]].
Qed.

Lemma pickAirwayLoop_firstFixes locationHint (airways : list Airway) :
  forall (i : Z) (minDistance : number) (minDistanceIndex : Z),
    pickAirwayLoop distanceTo airways locationHint i minDistance minDistanceIndex
    = if forallb (fun a => negb (List.length (fixes a) =? 0)%nat) airways
      then Some (pickFixLoop distanceTo (firstFixes airways) locationHint
                   i minDistance minDistanceIndex)
      else None.
Proof.
  induction airways as [| a tl IH]; intros i minDistance minDistanceIndex;
    [reflexivity |].
  cbn [pickAirwayLoop forallb firstFixes flat_map].
  destruct (fixes a) as [| first others]; [reflexivity |].
  cbn [at_index Z.ltb Z.compare Z.to_nat nth_error List.length Nat.eqb negb andb
       firstn app pickFixLoop].
  destruct (number_lt (distanceTo (location first) locationHint) minDistance);
    apply IH.
Qed.

(** X8. [pickAirway] throws a TypeError exactly when one of the airways has
    no fix; otherwise it returns the airway at the index [pickFix]'s loop
    selects among the first fixes of the airways. *)
Theorem pickAirway_by_first_fix :
  forall (airways : list Airway) (locationHint : Coordinates) (s : State),
    pickAirway distanceTo airways locationHint s
    = if forallb (fun a => negb (List.length (fixes a) =? 0)%nat) airways
      then (Normal (at_index airways
                      (pickFixLoop distanceTo (firstFixes airways) locationHint
                         0 MAX_SAFE_INTEGER (-1))), s)
      else (Thrown TypeError, s).
Proof.
  intros airways locationHint s. unfold pickAirway. unfold_uplink.
  rewrite pickAirwayLoop_firstFixes.
  now destruct (forallb _ airways).
Qed.

(* ------------------------------------------------------------------ *)
(** *** The chunks that insert a leg *)

(** X9. A 'waypoint' chunk whose lookup returns exactly one fix inserts that
    fix at [insertHead] and advances [insertHead] by one, whatever the
    location hint and the distance to it. *)
Theorem waypoint_single_candidate_inserted :
  forall (plan : FlightPlan) (pending : option PendingAirways)
         (done : list OfpRouteChunk) (ident : string) (locationHint : Coordinates)
         (only : Fix) (s : State),
    reached plan pending done s ->
    searchAllFix ident = [only] ->
    process (List.length done) (WaypointOfpRouteChunk ident locationHint) s
    = (Normal tt, inserted (Some only) s).
Proof.
  intros plan pending done ident locationHint only s Hreach Hone.
  cbn [processChunk].
  rewrite waypointChunk_settled by (eapply reaches_settled; eassumption).
  unfold insertFixByIdent. rewrite Hone. reflexivity.
Qed.

(** X10. A 'latlong' chunk never throws: it inserts at [insertHead] the
    waypoint created from exactly its two coordinates and advances
    [insertHead] by one, without asking the navigation database. *)
Theorem latlong_inserted :
  forall (plan : FlightPlan) (pending : option PendingAirways)
         (done : list OfpRouteChunk) (lat_ long_ : number) (s : State),
    reached plan pending done s ->
    process (List.length done) (LatLongOfpRouteChunk lat_ long_) s
    = (Normal tt,
       inserted (Some (createLatLonWaypoint {| lat := lat_; long := long_ |})) s).
Proof.
  intros plan pending done lat_ long_ s Hreach.
  cbn [processChunk]. unfold latlongChunk. unfold bind at 1.
  rewrite establishInsertHead_settled by (eapply reaches_settled; eassumption).
  reflexivity.
Qed.

Lemma process_insertsOneLeg (i : nat) (c : OfpRouteChunk) (s : State) :
  cursorSettled s -> insertsOneLeg c ->
  exists fix_, process i c s = (Normal tt, inserted fix_ s).
Proof.
  intros Hs Hc. destruct c; try contradiction; cbn [processChunk insertsOneLeg] in *.
  - rewrite waypointChunk_settled by assumption. unfold insertFixByIdent.
    destruct (searchAllFix ident0) as [| first others]; [congruence |].
    eexists. reflexivity.
  - unfold latlongChunk. unfold bind at 1.
    rewrite establishInsertHead_settled by assumption.
    eexists. reflexivity.
Qed.

Lemma loop_insertsOneLeg (rest : list OfpRouteChunk) :
  forall (i : nat) (s : State),
    cursorSettled s -> Forall insertsOneLeg rest ->
    exists s',
      loop i rest s = (Normal tt, s')
      /\ insertHead s' = insertHead s + Z.of_nat (List.length rest)
      /\ pendingAirways s' = pendingAirways s.
Proof.
  induction rest as [| c tl IH]; intros i s Hs Hall.
  - exists s. cbn. repeat split. lia.
  - inversion Hall as [| ? ? Hc Htl]; subst.
    destruct (@process_insertsOneLeg i c s Hs Hc) as (fix_ & Hrun).
    destruct (IH (S i) (inserted fix_ s)) as (s' & Hloop & Hhead & Hpending).
    + eapply process_settled; eassumption.
    + assumption.
    + exists s'. cbn [uplinkLoop]. unfold bind. rewrite Hrun, Hloop.
      repeat split; [| assumption].
      rewrite Hhead. cbn [inserted insertHead List.length]. lia.
Qed.

(** X11. A route made of 'latlong' chunks and of 'waypoint' chunks whose
    identifiers the database knows runs to completion; [insertHead] ends
    exactly as many places further as there are chunks, and the pending
    airways are as they were. *)
Theorem run_of_direct_chunks :
  forall s0 : State,
    Forall insertsOneLeg (chunks route) ->
    exists s',
      uplinkFlightPlanFromSimbrief distanceTo createLatLonWaypoint
        doUplinkProcedures route s0
      = (Normal tt, s')
      /\ insertHead s'
         = endOfEnroute (uplink s0) + Z.of_nat (List.length (chunks route))
      /\ pendingAirways s' = pendingAirways s0.
Proof.
  intros s0 Hall. rewrite uplinkFlightPlanFromSimbrief_loop.
  destruct (@loop_insertsOneLeg (chunks route) 0%nat
              (initialState (uplink s0) (pendingAirways s0)))
    as (s' & Hloop & Hhead & Hpending);
    [apply cursorSettled_endOfEnroute | assumption |].
  exists s'. split; [exact Hloop | split; [exact Hhead | exact Hpending]].
Qed.

(* ------------------------------------------------------------------ *)
(** *** The run as a whole *)

Lemma statesAtChunks_app (done rest : list OfpRouteChunk) :
  forall (i : nat) (s : State),
    statesAtChunks distanceTo createLatLonWaypoint doUplinkProcedures route
      i (done ++ rest) s
    = statesAtChunks distanceTo createLatLonWaypoint doUplinkProcedures route i done s
      ++ match loop i done s with
         | (Normal _, s') =>
             statesAtChunks distanceTo createLatLonWaypoint doUplinkProcedures route
               (i + List.length done)%nat rest s'
         | (Thrown _, _) => []
         end.
Proof.
  induction done as [| chunk tl IH]; intros i s.
  - cbn. now rewrite Nat.add_0_r.
  - cbn [app statesAtChunks uplinkLoop List.length]. unfold bind.
    destruct (process i chunk s) as [[[] | e] s1]; [| reflexivity].
    rewrite IH. now rewrite Nat.add_succ_r.
Qed.

Lemma statesAtChunks_length (done : list OfpRouteChunk) :
  forall (i : nat) (s s' : State),
    loop i done s = (Normal tt, s') ->
    List.length (statesAtChunks distanceTo createLatLonWaypoint doUplinkProcedures
                   route i done s)
    = List.length done.
Proof.
  induction done as [| chunk tl IH]; intros i s s' Hrun; [reflexivity |].
  cbn [uplinkLoop statesAtChunks List.length] in *. unfold bind in Hrun.
  destruct (process i chunk s) as [[[] | e] s1]; [| discriminate].
  f_equal. eapply IH. exact Hrun.
Qed.

(** X12. The run stops at the first chunk that throws: it ends with that
    exception in the state that chunk left, nothing is rolled back, and the
    loop enters no chunk after it. *)
Theorem run_stops_at_first_throw :
  forall (plan : FlightPlan) (pending : option PendingAirways)
         (done : list OfpRouteChunk) (chunk : OfpRouteChunk) (rest : list OfpRouteChunk)
         (s s' : State) (e : UplinkError) (s0 : State),
    chunks route = done ++ chunk :: rest ->
    reached plan pending done s ->
    process (List.length done) chunk s = (Thrown e, s') ->
    uplink s0 = plan -> pendingAirways s0 = pending ->
    uplinkFlightPlanFromSimbrief distanceTo createLatLonWaypoint
      doUplinkProcedures route s0
    = (Thrown e, s')
    /\ List.length
         (statesAtChunks distanceTo createLatLonWaypoint doUplinkProcedures route
            0%nat (chunks route) (initialState plan pending))
       = S (List.length done).
Proof.
  intros plan pending done chunk rest s s' e s0 Hchunks Hreach Hthrow Hplan Hpending.
  split.
  - exact (@run_throws_at plan pending done chunk rest s s' e Hchunks Hreach Hthrow
             s0 Hplan Hpending).
  - rewrite Hchunks, statesAtChunks_app, length_app.
    unfold reaches in Hreach. rewrite Hreach.
    rewrite (@statesAtChunks_length done 0%nat _ s Hreach).
    cbn [statesAtChunks Nat.add]. rewrite Hthrow. cbn. lia.
Qed.

(** X13. The index [setInsertHeadToEndOfEnroute] computes is the last of the
    legs up to the enroute segment, or the one before it when the enroute
    segment holds more than one leg and that last element is a
    discontinuity; it is never below -1. *)
Theorem endOfEnroute_bounds :
  forall plan : FlightPlan,
    -1 <= endOfEnroute plan
    /\ legsUpToEnroute plan - 2 <= endOfEnroute plan <= legsUpToEnroute plan - 1
    /\ (endOfEnroute plan = legsUpToEnroute plan - 2
        <-> ((1 < legCount enrouteSegment plan)%nat
             /\ at_index (allLegs plan) (legsUpToEnroute plan - 1) = Some Discontinuity)).
Proof.
  intros plan. split; [apply endOfEnroute_lower |].
  unfold endOfEnroute.
  destruct (Nat.ltb_spec 1 (legCount enrouteSegment plan)) as [Hmany | Hfew].
  - destruct (at_index (allLegs plan) (legsUpToEnroute plan - 1)) as [[| term] |];
      cbn [holds isDiscontinuity]; (split; [lia |]); split;
      try (intros [_ Hd]; discriminate Hd); try lia; try tauto.
  - split; [lia |]. split; [lia | intros [Hmany _]; lia].
Qed.

(* ------------------------------------------------------------------ *)
(** *** Airways *)

(** X14. An 'airway' chunk never changes the legs of the plan nor
    [insertHead], and it always leaves an airway entry pending, also when
    it throws. *)
Theorem airway_chunk_only_touches_pending :
  forall (i : nat) (ident : string) (locationHint : Coordinates) (s : State),
    let after := snd (process i (AirwayOfpRouteChunk ident locationHint) s) in
    uplink after = uplink s
    /\ insertHead after = insertHead s
    /\ pendingAirways after <> None.
Proof.
  intros i ident locationHint s after. subst after.
  destruct (process i (AirwayOfpRouteChunk ident locationHint) s) as [r s'] eqn:Hrun.
  cbn [processChunk] in Hrun. unfold airwayChunk in Hrun. unfold_uplink.
  split_run Hrun; inversion Hrun; subst; cbn; repeat split; congruence.
Qed.

(** X15. An 'airway' chunk met with no airway entry pending starts one at
    [insertHead]; if the element there is a discontinuity, or a leg without
    termination waypoint, the chunk fails with NotFound (no search fix) and
    the entry it started stays pending. *)
Theorem airway_chunk_without_search_fix :
  forall (i : nat) (ident : string) (locationHint : Coordinates) (s : State),
    pendingAirways s = None ->
    (elementAt (uplink s) (insertHead s) = Some Discontinuity
     \/ elementAt (uplink s) (insertHead s) = Some (Leg None)) ->
    errorKind (NoSearchFix ident) = NotFound
    /\ process i (AirwayOfpRouteChunk ident locationHint) s
       = (Thrown (NoSearchFix ident),
          {| uplink := uplink s;
             pendingAirways := Some (startAirwayEntry (insertHead s) (uplink s));
             insertHead := insertHead s |}).
Proof.
  intros i ident locationHint s Hpending Helement.
  split; [reflexivity |].
  cbn [processChunk]. unfold airwayChunk. unfold_uplink.
  rewrite Hpending. cbv beta iota.
  destruct Helement as [-> | ->]; reflexivity.
Qed.

Lemma firstFixes_nan locationHint (airways : list Airway) :
  (forall a, In a airways ->
     exists first, hd_error (fixes a) = Some first
                   /\ distanceTo (location first) locationHint = NaN) ->
  forallb (fun a => negb (List.length (fixes a) =? 0)%nat) airways = true
  /\ forall g, In g (firstFixes airways) -> distanceTo (location g) locationHint = NaN.
Proof.
  induction airways as [| a tl IH]; intros Hall.
  - split; [reflexivity | intros g []].
  - destruct (Hall a (or_introl eq_refl)) as (first & Hfirst & Hnan).
    destruct IH as [Hfixes Htl]; [intros a' Hin; apply Hall; now right |].
    destruct (fixes a) as [| f others] eqn:Hfa; [discriminate |].
    injection Hfirst as ->.
    cbn [forallb firstFixes flat_map]. rewrite Hfa. cbn. split; [assumption |].
    intros g [<- | Hin]; [assumption | now apply Htl].
Qed.

(** X16. With an airway entry pending, an 'airway' chunk searches from the
    last fix of the entry; when the first fix of every airway found is at a
    [NaN] distance from the hint, no airway is selected, even if only one
    was found, and [thenAirway] is called with no airway instead of the
    chunk failing. *)
Theorem airway_chunk_with_nan_hint_appends_no_airway :
  forall (i : nat) (ident : string) (locationHint : Coordinates) (s : State)
         (pending : PendingAirways) (tailElement : PendingAirwayElement)
         (searchFix : Fix),
    pendingAirways s = Some pending ->
    lastOf (elements pending) = Some tailElement ->
    tailFix tailElement = Some searchFix ->
    searchAirway ident searchFix <> [] ->
    (forall a, In a (searchAirway ident searchFix) ->
       exists first, hd_error (fixes a) = Some first
                     /\ distanceTo (location first) locationHint = NaN) ->
    process i (AirwayOfpRouteChunk ident locationHint) s
    = (Normal tt,
       {| uplink := uplink s;
          pendingAirways := Some (thenAirway None pending);
          insertHead := insertHead s |}).
Proof.
  intros i ident locationHint s pending tailElement searchFix
         Hpending Htail Hfix Hsome Hnan.
  destruct (@firstFixes_nan locationHint _ Hnan) as [Hfixes Hfirsts].
  pose proof (@pickAirwayLoop_firstFixes locationHint (searchAirway ident searchFix)
                0 MAX_SAFE_INTEGER (-1)) as Hloop.
  rewrite Hfixes, (@pickFixLoop_nan locationHint _ 0 MAX_SAFE_INTEGER (-1) Hfirsts)
    in Hloop.
  cbn [processChunk]. unfold airwayChunk. unfold_uplink.
  rewrite Hpending. cbv beta iota. rewrite Htail. cbv beta iota. rewrite Hfix.
  destruct (searchAirway ident searchFix) as [| a others] eqn:Hfound; [congruence |].
  cbn [List.length Nat.ltb Nat.leb]. cbv beta iota.
  rewrite Hpending. cbv beta iota. rewrite Hloop. reflexivity.
Qed.

(** X17. An 'airwayTermination' chunk that completes has finalized an airway
    entry into the plan: nothing is pending afterwards and [insertHead] is
    the end of the enroute legs of the new plan.  One that throws (no fix
    for the identifier, or a TypeError on the entry) leaves the legs and
    [insertHead] as they were and an entry pending. *)
Theorem airway_termination_outcomes :
  forall (i : nat) (ident : string) (s : State),
    let result := process i (AirwayTerminationOfpRouteChunk ident) s in
    match fst result with
    | Normal _ =>
        pendingAirways (snd result) = None
        /\ insertHead (snd result) = endOfEnroute (uplink (snd result))
        /\ exists pending fix_,
             uplink (snd result) = finalize (thenTo fix_ pending) (uplink s)
    | Thrown e =>
        (e = NoFixesForAirwayTermination ident \/ e = TypeError)
        /\ uplink (snd result) = uplink s
        /\ insertHead (snd result) = insertHead s
        /\ pendingAirways (snd result) <> None
    end.
Proof.
  intros i ident s result. subst result.
  destruct (process i (AirwayTerminationOfpRouteChunk ident) s) as [r s'] eqn:Hrun.
  cbn [processChunk] in Hrun. unfold airwayTerminationChunk in Hrun. unfold_uplink.
  split_run Hrun; cbn in *;
    repeat match goal with
           | H : Some _ = Some _ |- _ => injection H as <-
           | H : Some _ = None |- _ => discriminate H
           | H : None = Some _ |- _ => discriminate H
           end;
    inversion Hrun; subst; cbn;
    repeat split; try congruence; try (left; reflexivity); try (right; reflexivity);
    try (eexists; eexists; reflexivity).
Qed.

(** X18. With an airway entry pending, an 'airwayTermination' chunk ends the
    airway at the first fix of the lookup that has the identifier and the
    region code of a fix of the entry's last airway, and finalizes the
    entry. *)
Theorem airway_termination_at_first_fix_on_airway :
  forall (i : nat) (ident : string) (s : State) (pending : PendingAirways)
         (tailElement : PendingAirwayElement) (tailAirway : Airway)
         (k : nat) (fix_ : Fix),
    pendingAirways s = Some pending ->
    lastOf (elements pending) = Some tailElement ->
    airway tailElement = Some tailAirway ->
    nth_error (searchAllFix ident) k = Some fix_ ->
    (exists on, In on (fixes tailAirway)
                /\ fix_ident on = fix_ident fix_ /\ icaoCode on = icaoCode fix_) ->
    (forall j g on, (j < k)%nat -> nth_error (searchAllFix ident) j = Some g ->
       In on (fixes tailAirway) ->
       ~ (fix_ident on = fix_ident g /\ icaoCode on = icaoCode g)) ->
    process i (AirwayTerminationOfpRouteChunk ident) s
    = (Normal tt,
       {| uplink := finalize (thenTo (Some fix_) pending) (uplink s);
          pendingAirways := None;
          insertHead := endOfEnroute (finalize (thenTo (Some fix_) pending) (uplink s)) |}).
Proof.
  intros i ident s pending tailElement tailAirway k fix_
         Hpending Htail Hairway Hat Hon Hbefore.
  assert (Hpick : pickAirwayFix tailAirway (searchAllFix ident) = Some fix_).
  { unfold pickAirwayFix, find_first.
    revert k Hat Hbefore.
    induction (searchAllFix ident) as [| g tl IH]; intros k Hat Hbefore.
    - now destruct k.
    - cbn [find]. destruct k as [| k'].
      + injection Hat as ->.
        destruct Hon as (on & Hin & Hident & Hicao).
        replace (existsb (fun f => sameFix f fix_) (fixes tailAirway)) with true;
          [reflexivity |].
        symmetry. apply existsb_exists. exists on. split; [assumption |].
        unfold sameFix. now rewrite Hident, Hicao, !String.eqb_refl.
      + destruct (existsb (fun f => sameFix f g) (fixes tailAirway)) eqn:Hg.
        * exfalso. apply existsb_exists in Hg as (on & Hin & Hsame).
          unfold sameFix in Hsame. apply andb_true_iff in Hsame as [Hident Hicao].
          apply String.eqb_eq in Hident. apply String.eqb_eq in Hicao.
          apply (Hbefore 0%nat g on); [lia | reflexivity | assumption | now split].
        * apply (IH k'); [assumption |].
          intros j g' on Hj Hg' Hin. apply (Hbefore (S j) g' on); [lia | assumption | assumption]. }
  assert (Hsome : searchAllFix ident <> []).
  { intros Hnil. rewrite Hnil in Hat. now destruct k. }
  cbn [processChunk]. unfold airwayTerminationChunk. unfold_uplink.
  rewrite Hpending. cbv beta iota. rewrite Hpending. cbv beta iota.
  rewrite Htail. cbv beta iota. rewrite Hairway, Hpick.
  destruct (searchAllFix ident) as [| first tl]; [congruence |].
  reflexivity.
Qed.

(** X19. An 'airwayTermination' chunk met with no airway entry pending
    starts one at [insertHead]; if a fresh entry has no element yet, reading
    the airway of its last element throws a TypeError, and the fresh entry
    stays pending on an unchanged plan. *)
Theorem airway_termination_without_pending_entry :
  forall (i : nat) (ident : string) (s : State),
    pendingAirways s = None ->
    elements (startAirwayEntry (insertHead s) (uplink s)) = [] ->
    errorKind TypeError = RuntimeFault
    /\ process i (AirwayTerminationOfpRouteChunk ident) s
       = (Thrown TypeError,
          {| uplink := uplink s;
             pendingAirways := Some (startAirwayEntry (insertHead s) (uplink s));
             insertHead := insertHead s |}).
Proof.
  intros i ident s Hpending Hfresh.
  split; [reflexivity |].
  cbn [processChunk]. unfold airwayTerminationChunk. unfold_uplink.
  rewrite Hpending. cbv beta iota. cbn [pendingAirways]. rewrite Hfresh.
  reflexivity.
Qed.

End SynthesizerProperties.

(* ================================================================== *)
(** ** Procedure uplinking on and off *)

Section ProcedureUplinking.

Context {FlightPlan PendingAirways : Type}.
Context {service : FlightPlanService FlightPlan PendingAirways}.
Context {database : NavigationDatabase}.
Variable distanceTo : Coordinates -> Coordinates -> number.
Variable createLatLonWaypoint : Coordinates -> Fix.

Local Abbreviation State := (@UplinkState FlightPlan PendingAirways).
Local Abbreviation processWith :=
  (processChunk distanceTo createLatLonWaypoint).
Local Abbreviation loopWith :=
  (uplinkLoop distanceTo createLatLonWaypoint).

Lemma process_without_procedures (route route' : OfpRoute) (i j : nat)
    (chunk : OfpRouteChunk) (s : State) :
  processWith false route i chunk s = processWith false route' j chunk s.
Proof. now destruct chunk. Qed.

(** X20. With procedure uplinking disabled the 'procedure' chunks count for
    nothing: the loop does what it does on the chunks with the 'procedure'
    chunks taken out, whatever the positions and the rest of the route
    record. *)
Theorem loop_without_procedures :
  forall (route route' : OfpRoute) (rest : list OfpRouteChunk) (i j : nat) (s : State),
    loopWith false route i rest s
    = loopWith false route' j (filter (fun c => negb (isProcedure c)) rest) s.
Proof.
  intros route route' rest. induction rest as [| chunk tl IH]; intros i j s;
    [reflexivity |].
  cbn [uplinkLoop filter].
  destruct (isProcedure chunk) eqn:Hproc; cbn [negb].
  - destruct chunk; try discriminate Hproc.
    unfold bind. cbn. apply IH.
  - cbn [uplinkLoop]. unfold bind.
    rewrite (process_without_procedures route route' i j chunk s).
    destruct (processWith false route' j chunk s) as [[[] | e] s1]; [apply IH | reflexivity].
Qed.

Lemma procedure_first_unmatched (route : OfpRoute) (ident : string) (s : State) :
  List.length (filter (fun it => String.eqb (departure_ident it) ident)
                 (getDepartures (from_ident route) (from_rwy route))) <> 1%nat ->
  processWith true route 0%nat (ProcedureOfpRouteChunk ident) s = (Normal tt, s).
Proof.
  intros Hmatching. cbn [processChunk]. unfold procedureChunk.
  cbn [negb Z.of_nat Z.eqb andb].
  destruct (filter _ (getDepartures _ _)) as [| c [| c' others]];
    try reflexivity.
  now cbn in Hmatching.
Qed.

(** X21. With procedure uplinking enabled, a 'procedure' chunk in first
    position (matched against the departures of the origin and runway) or
    in last position (matched against the arrivals of the destination)
    never throws, and it leaves the plan, the pending airways and
    [insertHead] as they are unless exactly one procedure carries its
    identifier. *)
Theorem procedure_chunk_at_the_ends :
  forall (route : OfpRoute) (i : nat) (ident : string) (s : State),
    (i = 0%nat \/ Z.of_nat i = Z.of_nat (List.length (chunks route)) - 1) ->
    let matching :=
      if (i =? 0)%nat
      then List.length (filter (fun it => String.eqb (departure_ident it) ident)
                          (getDepartures (from_ident route) (from_rwy route)))
      else List.length (filter (fun it => String.eqb (arrival_ident it) ident)
                          (getArrivals (to_ident route))) in
    exists s',
      processWith true route i (ProcedureOfpRouteChunk ident) s = (Normal tt, s')
      /\ (matching <> 1%nat -> s' = s).
Proof.
  intros route i ident s Hend matching. subst matching.
  cbn [processChunk]. unfold procedureChunk. cbn [negb].
  destruct i as [| i'].
  - cbn [Z.of_nat Z.eqb negb andb Nat.eqb].
    destruct (filter _ (getDepartures _ _)) as [| c [| c' others]];
      eexists; (split; [reflexivity |]); cbn [List.length]; intros Hn;
      try reflexivity; congruence.
  - destruct Hend as [Hfirst | Hlast]; [discriminate |].
    destruct (Z.eqb_spec (Z.of_nat (S i')) 0) as [H0 | _]; [lia |].
    destruct (Z.eqb_spec (Z.of_nat (S i')) (Z.of_nat (List.length (chunks route)) - 1))
      as [_ | Hnot]; [| contradiction].
    cbn [negb andb Nat.eqb].
    destruct (filter _ (getArrivals _)) as [| c [| c' others]];
      eexists; (split; [reflexivity |]); cbn [List.length]; intros Hn;
      try reflexivity; congruence.
Qed.

(** X22. With procedure uplinking disabled, a 'sidEnrouteTransition' chunk
    does in the run exactly what a 'waypoint' chunk with the same identifier
    and hint does, except that a lookup without result is reported as the
    transition's own not-found error. *)
Theorem sid_transition_as_waypoint :
  forall (route : OfpRoute) (plan : FlightPlan) (pending : option PendingAirways)
         (done : list OfpRouteChunk) (ident : string) (locationHint : Coordinates)
         (s : State),
    reaches distanceTo createLatLonWaypoint false route plan pending done s ->
    errorKind (NoFixesForSidEnrouteTransition ident) = errorKind (NoFixesForWaypoint ident)
    /\ processWith false route (List.length done)
         (SidEnrouteTransitionOfpRouteChunk ident locationHint) s
       = match processWith false route (List.length done)
                 (WaypointOfpRouteChunk ident locationHint) s with
         | (Normal r, s') => (Normal r, s')
         | (Thrown _, s') => (Thrown (NoFixesForSidEnrouteTransition ident), s')
         end.
Proof.
  intros route plan pending done ident locationHint s Hreach.
  split; [reflexivity |].
  cbn [processChunk]. unfold sidEnrouteTransitionChunk. cbn [negb].
  rewrite waypointChunk_settled by (eapply reaches_settled; eassumption).
  unfold insertFixByIdent.
  destruct (0 <? List.length (searchAllFix ident))%nat; reflexivity.
Qed.

(** X23. With procedure uplinking enabled, when the first chunk is a
    'procedure' chunk that finds no single matching departure and the plan
    has no departure procedure, a 'sidEnrouteTransition' chunk right after
    it is not skipped: reading the enroute transitions of the missing
    departure throws a TypeError and the run fails on an unchanged plan. *)
Theorem sid_transition_without_departure_fails :
  forall (route : OfpRoute) (procedureIdent transitionIdent : string)
         (locationHint : Coordinates) (rest : list OfpRouteChunk) (s0 : State),
    chunks route
    = ProcedureOfpRouteChunk procedureIdent
      :: SidEnrouteTransitionOfpRouteChunk transitionIdent locationHint :: rest ->
    List.length (filter (fun it => String.eqb (departure_ident it) procedureIdent)
                   (getDepartures (from_ident route) (from_rwy route))) <> 1%nat ->
    originDeparture (uplink s0) = None ->
    errorKind TypeError = RuntimeFault
    /\ uplinkFlightPlanFromSimbrief distanceTo createLatLonWaypoint true route s0
       = (Thrown TypeError, initialState (uplink s0) (pendingAirways s0)).
Proof.
  intros route procedureIdent transitionIdent locationHint rest s0
         Hchunks Hmatching Hnone.
  split; [reflexivity |].
  rewrite uplinkFlightPlanFromSimbrief_loop, Hchunks.
  cbn [uplinkLoop]. unfold bind at 1.
  rewrite procedure_first_unmatched by assumption.
  unfold bind at 1. cbn [processChunk]. unfold sidEnrouteTransitionChunk. cbn [negb].
  unfold bind, get, defined. cbn [initialState uplink]. rewrite Hnone. reflexivity.
Qed.

End ProcedureUplinking.

(* ================================================================== *)
(** ** The properties on the reference collaborators *)

Import Reference Examples.

Local Abbreviation runOn service doUplinkProcedures route :=
  (uplinkFlightPlanFromSimbrief (service := service) (database := fixTable)
     planarDistance latLonWaypoint doUplinkProcedures route).

Local Abbreviation processOn service doUplinkProcedures route :=
  (processChunk (service := service) (database := fixTable)
     planarDistance latLonWaypoint doUplinkProcedures route).

Lemma classify_same_direct_via_only_waypoints_witness :
  generateRouteInstructionsFromNavlog parseDecimalText directNavlog
  = waypointsOf parseDecimalText directNavlog.
Proof.
  apply (@classify_same_direct_via_only_waypoints parseDecimalText directNavlog "DCT").
  - repeat constructor.
  - repeat constructor; discriminate.
  - repeat constructor; discriminate.
  - left. reflexivity.
Defined.

(** C2, as stated, fails: two fixes on the same airway, neither marked
    SID/STAR nor of coordinate type, give a 'waypoint', an 'airway' and an
    'airwayTermination' chunk. *)
Lemma classify_same_airway_via_counterexample :
  Forall (fun f => via_airway f = "AWY1") airwayNavlog
  /\ Forall (fun f => is_sid_star f <> "1") airwayNavlog
  /\ Forall (fun f => type f <> "ltlg") airwayNavlog
  /\ generateRouteInstructionsFromNavlog parseDecimalText airwayNavlog
     = [ WaypointOfpRouteChunk "A" (locationOf parseDecimalText (navlogFix "A" "AWY1" "0"));
         AirwayOfpRouteChunk "AWY1" (locationOf parseDecimalText (navlogFix "B" "AWY1" "0"));
         AirwayTerminationOfpRouteChunk "B" ]
  /\ generateRouteInstructionsFromNavlog parseDecimalText airwayNavlog
     <> waypointsOf parseDecimalText airwayNavlog.
Proof.
  split; [| split; [| split; [| split]]].
  - repeat constructor.
  - repeat constructor; discriminate.
  - repeat constructor; discriminate.
  - reflexivity.
  - discriminate.
Qed.



Lemma procedure_chunk_between_the_ends_witness :
  runOn originOnly true procedureSecond start
  = (Thrown ProcedureNotAtStartOrEnd, afterA).
Proof.
  refine (proj2 (proj2
            (@procedure_chunk_between_the_ends ListPlan ListPendingAirways originOnly
               fixTable planarDistance latLonWaypoint true procedureSecond
               [] None [WaypointOfpRouteChunk "A" hintAt0] "SIDX"
               [WaypointOfpRouteChunk "B" hintAt0] afterA eq_refl _ _ eq_refl))
            eq_refl start eq_refl eq_refl); discriminate.
Defined.

(** C5, as stated, fails: with procedure uplinking disabled, three chunks
    with a 'procedure' chunk second run to completion and both waypoints
    around it are inserted. *)
Lemma procedure_second_of_three_counterexample :
  runOn originOnly false procedureSecond start
  = (Normal tt,
     {| uplink := [Leg (Some fixA); Leg (Some fixB)];
        pendingAirways := None; insertHead := 2 |})
  /\ fst (runOn originOnly false procedureSecond start)
     <> Thrown ProcedureNotAtStartOrEnd.
Proof. split; [reflexivity | discriminate]. Qed.

Lemma waypoint_without_fix_fails_witness :
  runOn originOnly true unknownSecond start
  = (Thrown (NoFixesForWaypoint "ABCDE"), afterA).
Proof.
  refine (proj2 (proj2
            (@waypoint_without_fix_fails ListPlan ListPendingAirways originOnly
               fixTable planarDistance latLonWaypoint true unknownSecond
               [] None [WaypointOfpRouteChunk "A" hintAt0] "ABCDE" hintAt0
               [WaypointOfpRouteChunk "B" hintAt0] afterA eq_refl eq_refl eq_refl))
            start eq_refl eq_refl).
Defined.

Lemma waypoint_inserts_nearest_candidate_witness :
  searchAllFix (NavigationDatabase := fixTable) "XYZ" = [farXYZ; nearXYZ]
  /\ planarDistance (location nearXYZ) hintAt0 = Finite (5 # 1)
  /\ planarDistance (location farXYZ) hintAt0 = Finite (50 # 1)
  /\ processOn originOnly true ambiguousFirst 0%nat
       (WaypointOfpRouteChunk "XYZ" hintAt0) atOrigin
     = (Normal tt, inserted (service := originOnly) (Some nearXYZ) atOrigin).
Proof.
  split; [reflexivity | split; [reflexivity | split; [reflexivity |]]].
  destruct (@waypoint_inserts_nearest_candidate ListPlan ListPendingAirways originOnly
              fixTable planarDistance latLonWaypoint true ambiguousFirst
              [] None [] "XYZ" hintAt0 atOrigin eq_refl)
    as (k & best & _ & _ & Hrun & Hexample).
  - cbn. lia.
  - exists nearXYZ. split; [cbn; auto | reflexivity].
  - rewrite (Hexample nearXYZ farXYZ (or_intror eq_refl) eq_refl eq_refl) in Hrun.
    exact Hrun.
Defined.

(** C7, as stated, fails: with a hint whose coordinates are [NaN] the lookup
    of "XYZ" returns two candidates, and the chunk inserts a leg with no fix
    instead of either of them. *)
Lemma waypoint_several_candidates_counterexample :
  (1 < List.length (searchAllFix (NavigationDatabase := fixTable) "XYZ"))%nat
  /\ processOn originOnly true ambiguousFirst 0%nat
       (WaypointOfpRouteChunk "XYZ" nanHint) atOrigin
     = (Normal tt, {| uplink := [Leg None]; pendingAirways := None; insertHead := 1 |})
  /\ (forall c, In c (searchAllFix (NavigationDatabase := fixTable) "XYZ") ->
        processOn originOnly true ambiguousFirst 0%nat
          (WaypointOfpRouteChunk "XYZ" nanHint) atOrigin
        <> (Normal tt, inserted (service := originOnly) (Some c) atOrigin)).
Proof.
  split; [cbn; lia | split; [reflexivity |]].
  intros c [<- | [<- | []]]; discriminate.
Qed.

Lemma cursor_is_an_index_at_every_chunk_witness :
  Forall (fun s => 0 <= insertHead s /\ (insertHead s =? -1) = false)
    (statesAtChunks (service := originOnly) (database := fixTable)
       planarDistance latLonWaypoint true procedureSecond
       0%nat (chunks procedureSecond) (initialState (service := originOnly) [] None)).
Proof.
  refine (proj2 (proj2
            (@cursor_is_an_index_at_every_chunk ListPlan ListPendingAirways originOnly
               fixTable planarDistance latLonWaypoint true procedureSecond start)) _).
  intros plan. unfold legsUpToEnroute. cbn [legCount originOnly listService]. lia.
Defined.

(** C8, as stated, fails: on a plan whose segments hold no leg the cursor
    computed before the loop is -1, and the first chunk is entered with it. *)
Lemma cursor_is_sentinel_on_empty_plan_counterexample :
  statesAtChunks (service := noLegs) (database := fixTable)
    planarDistance latLonWaypoint true ambiguousFirst
    0%nat (chunks ambiguousFirst) (initialState (service := noLegs) [] None)
  = [ {| uplink := []; pendingAirways := None; insertHead := -1 |} ]
  /\ ~ Forall (fun s => 0 <= insertHead s /\ (insertHead s =? -1) = false)
        (statesAtChunks (service := noLegs) (database := fixTable)
           planarDistance latLonWaypoint true ambiguousFirst
           0%nat (chunks ambiguousFirst) (initialState (service := noLegs) [] None)).
Proof.
  split; [reflexivity |].
  intros Hall. inversion Hall as [| s l [Hindex _] _]; subst.
  cbn in Hindex. lia.
Qed.

Lemma airway_termination_without_match_finalizes_witness :
  processOn originOnly true ambiguousFirst 1%nat
    (AirwayTerminationOfpRouteChunk "Q") onAirway
  = (Normal tt,
     {| uplink := [Leg (Some fixA); Leg None];
        pendingAirways := None; insertHead := 2 |}).
Proof.
  refine (proj2
            (@airway_termination_without_match_finalizes ListPlan ListPendingAirways
               originOnly fixTable planarDistance latLonWaypoint true ambiguousFirst
               1%nat "Q" onAirway
               {| anchor := 1; entries := [{| airway := Some airwayAB; to := None |}] |}
               {| airway := Some airwayAB; to := None |} airwayAB
               eq_refl eq_refl eq_refl _ _)).
  - discriminate.
  - intros it fix_ [<- | []] [<- | [<- | []]] [Hident _]; discriminate Hident.
Defined.

Lemma waypoint_with_nan_hint_inserts_no_fix_witness :
  generateRouteInstructionsFromNavlog parseDecimalText [malformed]
  = [WaypointOfpRouteChunk "XYZ" nanHint]
  /\ pickFix planarDistance (searchAllFix (NavigationDatabase := fixTable) "XYZ") nanHint
     = None
  /\ processOn originOnly true ambiguousFirst 0%nat
       (WaypointOfpRouteChunk "XYZ" nanHint) atOrigin
     = (Normal tt, {| uplink := [Leg None]; pendingAirways := None; insertHead := 1 |}).
Proof.
  destruct (@waypoint_with_nan_hint_inserts_no_fix ListPlan ListPendingAirways originOnly
              fixTable planarDistance latLonWaypoint true ambiguousFirst parseDecimalText
              malformed [] None [] atOrigin)
    as (Hchunk & _ & Hpick & Hrun).
  - reflexivity.
  - discriminate.
  - discriminate.
  - reflexivity.
  - reflexivity.
  - reflexivity.
  - cbn. lia.
  - intros g [<- | [<- | []]]; reflexivity.
  - split; [exact Hchunk | split; [exact Hpick | exact Hrun]].
Defined.

(* ------------------------------------------------------------------ *)
(** *** The further properties on the reference collaborators *)

Lemma classify_closes_airways_witness :
  airwaysClosed (generateRouteInstructionsFromNavlog parseDecimalText airwayNavlog) = true.
Proof.
  apply (@classify_closes_airways parseDecimalText airwayNavlog).
  repeat constructor; discriminate.
Defined.

Lemma classify_never_emits_reserved_chunks_witness :
  AirwayTerminationOfpRouteChunk "B" <> DctOfpRouteChunk
  /\ (forall ident_,
        AirwayTerminationOfpRouteChunk "B" <> StarEnrouteTransitionOfpRouteChunk ident_).
Proof.
  apply (@classify_never_emits_reserved_chunks parseDecimalText airwayNavlog).
  cbn. right. right. left. reflexivity.
Defined.

Lemma classify_first_chunk_witness :
  (isProcedure waypointA || isWaypoint waypointA || isLatLong waypointA)%bool = true.
Proof.
  apply (@classify_first_chunk parseDecimalText airwayNavlog).
  reflexivity.
Defined.

Lemma classify_terminations_and_transitions_follow_witness :
  holds isAirway (lastOf [waypointA; airwayAtB]) = true.
Proof.
  refine (proj1
            (@classify_terminations_and_transitions_follow parseDecimalText airwayNavlog
               [waypointA; airwayAtB] [] (AirwayTerminationOfpRouteChunk "B") eq_refl)
            eq_refl).
Defined.

Lemma classify_no_repeated_procedure_or_airway_witness :
  (isProcedure waypointA && isProcedure airwayAtB)%bool = false.
Proof.
  refine (proj1
            (@classify_no_repeated_procedure_or_airway parseDecimalText airwayNavlog
               [] [AirwayTerminationOfpRouteChunk "B"] waypointA airwayAtB eq_refl)).
Defined.

Lemma waypoint_single_candidate_inserted_witness :
  processOn originOnly true ambiguousFirst 0%nat
    (WaypointOfpRouteChunk "A" nanHint) atOrigin
  = (Normal tt, inserted (service := originOnly) (Some fixA) atOrigin).
Proof.
  apply (@waypoint_single_candidate_inserted ListPlan ListPendingAirways originOnly
           fixTable planarDistance latLonWaypoint true ambiguousFirst
           [] None [] "A" nanHint fixA atOrigin); reflexivity.
Defined.

Lemma latlong_inserted_witness :
  processOn originOnly true directRoute 1%nat
    (LatLongOfpRouteChunk (Finite (10 # 1)) (Finite (20 # 1))) afterA
  = (Normal tt,
     inserted (service := originOnly)
       (Some (latLonWaypoint {| lat := Finite (10 # 1); long := Finite (20 # 1) |})) afterA).
Proof.
  apply (@latlong_inserted ListPlan ListPendingAirways originOnly
           fixTable planarDistance latLonWaypoint true directRoute
           [] None [WaypointOfpRouteChunk "A" hintAt0]
           (Finite (10 # 1)) (Finite (20 # 1)) afterA).
  reflexivity.
Defined.

Lemma run_of_direct_chunks_witness :
  exists s',
    runOn originOnly true directRoute start = (Normal tt, s')
    /\ insertHead s' = 0 + 3
    /\ pendingAirways s' = None.
Proof.
  apply (@run_of_direct_chunks ListPlan ListPendingAirways originOnly
           fixTable planarDistance latLonWaypoint true directRoute start).
  repeat constructor; discriminate.
Defined.

Lemma run_stops_at_first_throw_witness :
  runOn originOnly true unknownSecond start
  = (Thrown (NoFixesForWaypoint "ABCDE"), afterA)
  /\ List.length
       (statesAtChunks (service := originOnly) (database := fixTable)
          planarDistance latLonWaypoint true unknownSecond
          0%nat (chunks unknownSecond) (initialState (service := originOnly) [] None))
     = 2%nat.
Proof.
  apply (@run_stops_at_first_throw ListPlan ListPendingAirways originOnly
           fixTable planarDistance latLonWaypoint true unknownSecond
           [] None [WaypointOfpRouteChunk "A" hintAt0]
           (WaypointOfpRouteChunk "ABCDE" hintAt0) [WaypointOfpRouteChunk "B" hintAt0]
           afterA afterA (NoFixesForWaypoint "ABCDE") start); reflexivity.
Defined.

Lemma airway_chunk_without_search_fix_witness :
  processOn originOnly true ambiguousFirst 0%nat
    (AirwayOfpRouteChunk "AWY1" hintAt0) atOrigin
  = (Thrown (NoSearchFix "AWY1"),
     {| uplink := [];
        pendingAirways := Some {| anchor := 0; entries := [] |};
        insertHead := 0 |}).
Proof.
  refine (proj2
            (@airway_chunk_without_search_fix ListPlan ListPendingAirways originOnly
               fixTable planarDistance latLonWaypoint true ambiguousFirst
               0%nat "AWY1" hintAt0 atOrigin eq_refl _)).
  right. reflexivity.
Defined.

Lemma airway_chunk_with_nan_hint_appends_no_airway_witness :
  searchAirway (NavigationDatabase := fixTable) "AWY1" fixB = [airwayAB]
  /\ processOn originOnly true ambiguousFirst 1%nat
       (AirwayOfpRouteChunk "AWY1" nanHint) onAirway
     = (Normal tt,
        {| uplink := [Leg (Some fixA)];
           pendingAirways :=
             Some {| anchor := 1;
                     entries := [ {| airway := Some airwayAB; to := None |};
                                  {| airway := None; to := None |} ] |};
           insertHead := 1 |}).
Proof.
  split; [reflexivity |].
  apply (@airway_chunk_with_nan_hint_appends_no_airway ListPlan ListPendingAirways
           originOnly fixTable planarDistance latLonWaypoint true ambiguousFirst
           1%nat "AWY1" nanHint onAirway entryOnAB
           {| airway := Some airwayAB; to := None |} fixB).
  - reflexivity.
  - reflexivity.
  - reflexivity.
  - discriminate.
  - intros a [<- | []]. exists fixA. split; reflexivity.
Defined.

Lemma airway_termination_at_first_fix_on_airway_witness :
  processOn originOnly true ambiguousFirst 1%nat
    (AirwayTerminationOfpRouteChunk "B") onAirway
  = (Normal tt,
     {| uplink := [Leg (Some fixA); Leg (Some fixB)];
        pendingAirways := None; insertHead := 2 |}).
Proof.
  apply (@airway_termination_at_first_fix_on_airway ListPlan ListPendingAirways
           originOnly fixTable planarDistance latLonWaypoint true ambiguousFirst
           1%nat "B" onAirway entryOnAB
           {| airway := Some airwayAB; to := None |} airwayAB 0%nat fixB).
  - reflexivity.
  - reflexivity.
  - reflexivity.
  - reflexivity.
  - exists fixB. cbn. auto.
  - intros j g on Hj. lia.
Defined.

Lemma airway_termination_without_pending_entry_witness :
  processOn originOnly true ambiguousFirst 1%nat
    (AirwayTerminationOfpRouteChunk "B") afterA
  = (Thrown TypeError,
     {| uplink := [Leg (Some fixA)];
        pendingAirways := Some {| anchor := 1; entries := [] |};
        insertHead := 1 |}).
Proof.
  refine (proj2
            (@airway_termination_without_pending_entry ListPlan ListPendingAirways
               originOnly fixTable planarDistance latLonWaypoint true ambiguousFirst
               1%nat "B" afterA eq_refl eq_refl)).
Defined.

Lemma procedure_chunk_at_the_ends_witness :
  exists s',
    processOn originOnly true sidRoute 0%nat (ProcedureOfpRouteChunk "SIDX") atOrigin
    = (Normal tt, s')
    /\ (0%nat <> 1%nat -> s' = atOrigin).
Proof.
  apply (@procedure_chunk_at_the_ends ListPlan ListPendingAirways originOnly
           fixTable planarDistance latLonWaypoint sidRoute 0%nat "SIDX" atOrigin).
  left. reflexivity.
Defined.

Lemma sid_transition_as_waypoint_witness :
  processOn originOnly false sidRoute 1%nat
    (SidEnrouteTransitionOfpRouteChunk "A" hintAt0) atOrigin
  = (Normal tt, inserted (service := originOnly) (Some fixA) atOrigin).
Proof.
  refine (proj2
            (@sid_transition_as_waypoint ListPlan ListPendingAirways originOnly
               fixTable planarDistance latLonWaypoint sidRoute
               [] None [ProcedureOfpRouteChunk "SIDX"] "A" hintAt0 atOrigin eq_refl)).
Defined.

Lemma sid_transition_without_departure_fails_witness :
  runOn originOnly true sidRoute start = (Thrown TypeError, atOrigin).
Proof.
  refine (proj2
            (@sid_transition_without_departure_fails ListPlan ListPendingAirways
               originOnly fixTable planarDistance latLonWaypoint sidRoute
               "SIDX" "A" hintAt0 [] start eq_refl _ eq_refl)).
  discriminate.
Defined.
